(** * va-ddc [src/content.ts]: a shallow embedding and its properties

    The module massages the message object a SAS Visual Analytics
    data-driven content frame receives: [validateRoles] checks the column
    types, [initializeSelections] strips the brush columns into a
    selection list, [convertDateColumns] turns date strings into [Date]
    objects, [getVAParameters] collapses the parameter list into an
    object, and [setupResizeListener] debounces window resizes.

    JavaScript arrays are lists read with stdpp's lookup [!!]; the
    message is mutated in place by the source, so the mutating functions
    return the message as it is when they stop, next to their completion
    (a normal return or a thrown [TypeError]). *)

From Stdlib Require Import ZArith Ascii String.
From stdpp Require Import base decidable option list strings gmap.
From Equations Require Import Equations.

Open Scope string_scope.
Open Scope list_scope.
Open Scope nat_scope.

(** ** Host strings

    A JavaScript string is a sequence of code units; the embedding keeps
    the code units below 256, one [ascii] each. *)

Module JSString.

(** The white space and line terminator code units below 256 that
    [String.prototype.trim] strips: TAB, LF, VT, FF, CR, SP, NBSP. *)
Definition is_white_space (c : ascii) : bool :=
  let n := nat_of_ascii c in
  (n =? 9)%nat || (n =? 10)%nat || (n =? 11)%nat || (n =? 12)%nat
  || (n =? 13)%nat || (n =? 32)%nat || (n =? 160)%nat.

Fixpoint trim_start (s : string) : string :=
  match s with
  | String c s' => if is_white_space c then trim_start s' else s
  | EmptyString => EmptyString
  end.

Fixpoint trim_end (s : string) : string :=
  match s with
  | String c s' =>
      let t := trim_end s' in
      if is_white_space c && (t =? "")%string then EmptyString else String c t
  | EmptyString => EmptyString
  end.

(** [s.trim()] *)
Definition trim (s : string) : string := trim_end (trim_start s).

Fixpoint drop (n : nat) (s : string) : string :=
  match n, s with
  | S n', String _ s' => drop n' s'
  | _, _ => s
  end.

Fixpoint take (n : nat) (s : string) : string :=
  match n, s with
  | S n', String c s' => String c (take n' s')
  | _, _ => EmptyString
  end.

(** [s.substr(start)] for a start that is not negative: the rest of the
    string, empty when [start] is past the end. *)
Definition substr_from (start : nat) (s : string) : string := drop start s.

(** [s.substr(start, len)] for a start that is not negative: at most
    [len] code units from [start] on. *)
Definition substr (start len : nat) (s : string) : string :=
  take len (drop start s).

End JSString.

(** ** Data model (the interfaces of lines 18-47) *)

Inductive ParamValue :=
| PString (s : string)
| PArray (l : list string).

Module VAParameter.
Record t := mk { label : string; value : ParamValue }.
End VAParameter.

Module VAFormat.
Record t := mk {
  name : string;
  width : option Z;
  precision : option Z;
  formatString : string }.
End VAFormat.

Module VAColumn.
Record t := mk {
  name : string;
  label : string;
  type : string;
  usage : option string;
  aggregation : option string;
  format : option VAFormat.t }.
End VAColumn.

(** A cell is [string | number | Date].  The code only ever compares a
    number with [0], so numbers are integers here.  A [Date] is kept as
    the string handed to its constructor, [CDate s] standing for
    [new Date(s)]: what that string parses to is the host's business.
    The rows of a message are arrays of their own, none of them sitting
    at two places of [data]: a list of lists. *)
Inductive Cell :=
| CStr (s : string)
| CNum (n : Z)
| CDate (dateStr : string).

Abbreviation Row := (list Cell).

Record VAMessage := mkMessage {
  version : string;
  resultName : string;
  rowCount : Z;
  availableRowCount : Z;
  data : list Row;
  columns : list VAColumn.t;
  parameters : option (list VAParameter.t) }.

Definition with_table (m : VAMessage) (cols : list VAColumn.t) (rows : list Row)
  : VAMessage :=
  {| version := version m; resultName := resultName m;
     rowCount := rowCount m; availableRowCount := availableRowCount m;
     data := rows; columns := cols; parameters := parameters m |}.

(** ** Completions and loops *)

Inductive JSError := TypeError.

(** How a call ends. *)
Inductive Completion (A : Type) :=
| Normal (a : A)
| Throw (e : JSError).
Arguments Normal {A} a.
Arguments Throw {A} e.

(** How a loop body ends: it falls through to the next iteration, leaves
    the function with [return v], or throws. *)
Inductive Control (A : Type) :=
| Next
| Return (a : A)
| Raise (e : JSError).
Arguments Next {A}.
Arguments Return {A} a.
Arguments Raise {A} e.

(** [for (c = start; c < start + n; c++) body(c)] for a body that keeps
    no state. *)
Fixpoint for_count {A} (n : nat) (c : nat) (body : nat → Control A) : Control A :=
  match n with
  | O => Next
  | S n' =>
      match body c with
      | Next => for_count n' (S c) body
      | stop => stop
      end
  end.

(** The same loop threading a state; the state at a [return] or a throw
    is the one the body left. *)
Fixpoint for_state {St A} (n : nat) (c : nat)
    (body : nat → St → St * Control A) (st : St) : St * Control A :=
  match n with
  | O => (st, Next)
  | S n' =>
      match body c st with
      | (st', Next) => for_state n' (S c) body st'
      | stop => stop
      end
  end.

(** ** validateRoles (lines 78-115) *)

(** [optionalTypes: string | Array<string> | null] *)
Inductive OptionalTypes :=
| OptNull
| OptType (t : string)
| OptList (ts : list string).

(** [columnsInfo[c].type !== ty], where [ty] is [undefined] when the index
    it was read at is out of range; reading [.type] of a missing column
    throws. *)
Definition type_differs {A} (columnsInfo : list VAColumn.t) (c : nat)
    (ty : option string) (k : Control A) : Control A :=
  match columnsInfo !! c with
  | None => Raise TypeError
  | Some col =>
      if bool_decide (Some (VAColumn.type col) ≠ ty) then k else Next
  end.

Definition validateRoles (resultData : option VAMessage)
    (expectedTypes : list string) (optionalTypes : OptionalTypes)
  : Completion bool :=
  match resultData with
  | None => Throw TypeError
  | Some resultData =>
      let columnsInfo := columns resultData in
      let numCols := length columnsInfo in
      let finish (k : Control bool) (rest : Completion bool) :=
        match k with
        | Next => rest
        | Return b => Normal b
        | Raise e => Throw e
        end in
      if (numCols <? length expectedTypes)%nat then Normal false
      else
        finish
          (for_count (length expectedTypes) 0 (λ c,
             type_differs columnsInfo c (expectedTypes !! c) (Return false)))
          (if (length expectedTypes <? numCols)%nat then
             match optionalTypes with
             | OptNull => Normal false
             | OptList ts =>
                 finish
                   (for_count
                      (Nat.min (numCols - length expectedTypes) (length ts))
                      0 (λ i,
                         type_differs columnsInfo (length expectedTypes + i)
                           (ts !! i) (Return false)))
                   (Normal true)
             | OptType t =>
                 finish
                   (for_count (numCols - length expectedTypes)
                      (length expectedTypes) (λ c,
                         type_differs columnsInfo c (Some t) (Return false)))
                   (Normal true)
             end
           else Normal true)
  end.

(** ** initializeSelections (lines 121-146) *)

Record Selection := mkSelection { row : nat }.

(** [usage && usage === 'brush'] *)
Definition is_brush (col : VAColumn.t) : bool :=
  match VAColumn.usage col with
  | Some u => (u =? "brush")%string
  | None => false
  end.

(** [arrayData[r][c] !== 0]; the cell is [undefined] past the end of the
    row, and [undefined !== 0] holds. *)
Definition not_zero (cell : option Cell) : bool :=
  match cell with
  | Some (CNum n) => negb (n =? 0)%Z
  | _ => true
  end.

(** The body of the loop over the rows (lines 135-140): record the row if
    its brush cell is not [0], then [arrayData[r].splice(c, 1)]. *)
Definition brush_row (c r : nat) (st : list Row * list Selection)
  : (list Row * list Selection) * Control unit :=
  let '(arrayData, selections) := st in
  match arrayData !! r with
  | None => (st, Raise TypeError)
  | Some cells =>
      let selections :=
        if not_zero (cells !! c) then selections ++ [mkSelection r]
        else selections in
      ((<[r := delete c cells]> arrayData, selections), Next)
  end.

(** The loop over the columns (lines 129-143).  [columnsInfo.length] is
    read again at every iteration and shrinks with every splice while [c]
    goes up by one whatever the body did. *)
Equations? brush_scan (c : nat) (columnsInfo : list VAColumn.t)
    (arrayData : list Row) (selections : list Selection)
  : (list VAColumn.t * list Row * list Selection) * Completion unit
  by wf (length columnsInfo - c) lt :=
brush_scan c columnsInfo arrayData selections
  with decide (c < length columnsInfo) => {
  | right _ => ((columnsInfo, arrayData, selections), Normal ());
  | left _ with columnsInfo !! c => {
    | None => ((columnsInfo, arrayData, selections), Throw TypeError);
    | Some col with is_brush col => {
      | false => brush_scan (S c) columnsInfo arrayData selections;
      | true
          with for_state (length arrayData) 0 (brush_row c)
                 (arrayData, selections) => {
        | ((arrayData', selections'), Next) =>
            brush_scan (S c) (delete c columnsInfo) arrayData' selections';
        | ((arrayData', selections'), Return _) =>
            ((delete c columnsInfo, arrayData', selections'), Normal ());
        | ((arrayData', selections'), Raise e) =>
            ((delete c columnsInfo, arrayData', selections'), Throw e) } } } }.
Proof.
  - rewrite length_delete by (apply lookup_lt_is_Some_2; assumption). lia.
  - lia.
Qed.

(** [null] for an absent message, the selection array otherwise.  Under
    the declared type [columns] and [data] are arrays, so the test of
    line 128 is passed. *)
Definition initializeSelections (resultData : option VAMessage)
  : option VAMessage * Completion (option (list Selection)) :=
  match resultData with
  | None => (None, Normal None)
  | Some m =>
      match brush_scan 0 (columns m) (data m) [] with
      | ((columnsInfo, arrayData, selections), Normal _) =>
          (Some (with_table m columnsInfo arrayData), Normal (Some selections))
      | ((columnsInfo, arrayData, selections), Throw e) =>
          (Some (with_table m columnsInfo arrayData), Throw e)
      end
  end.

(** ** convertDateColumns (lines 148-183) *)

(** [colInfo.format && colInfo.format.formatString == f] *)
Definition formatString_is (colInfo : VAColumn.t) (f : string) : bool :=
  match VAColumn.format colInfo with
  | Some fmt => (VAFormat.formatString fmt =? f)%string
  | None => false
  end.

(** The chain of lines 168-175 on the trimmed cell. *)
Definition rearrange (colInfo : VAColumn.t) (dateStr : string) : string :=
  if formatString_is colInfo "DDMMYY8" then
    JSString.substr_from 6 dateStr +:+ "-" +:+ JSString.substr 3 2 dateStr
      +:+ "-" +:+ JSString.substr 0 2 dateStr
  else if formatString_is colInfo "JULIAN7" then
    dateStr
  else if formatString_is colInfo "DATE9" then
    JSString.substr 0 2 dateStr +:+ " " +:+ JSString.substr 2 3 dateStr
      +:+ " " +:+ JSString.substr_from 5 dateStr
  else dateStr.

(** The body of the loop over the rows (lines 159-178).  [.trim()] is
    called on the cell whatever it is: it is there for a string only, and
    the call throws for a number, a [Date] or a missing cell. *)
Definition convert_cell (colInfo : VAColumn.t) (c r : nat)
    (arrayData : list Row) : list Row * Control unit :=
  match arrayData !! r with
  | None => (arrayData, Raise TypeError)
  | Some cells =>
      match cells !! c with
      | Some (CStr s) =>
          let dateStr := JSString.trim s in
          let dateStr := rearrange colInfo dateStr in
          (<[r := <[c := CDate dateStr]> cells]> arrayData, Next)
      | _ => (arrayData, Raise TypeError)
      end
  end.

(** The body of the loop over the columns (lines 154-181). *)
Definition convert_column (columnsInfo : list VAColumn.t) (c : nat)
    (arrayData : list Row) : list Row * Control unit :=
  match columnsInfo !! c with
  | None => (arrayData, Next)
  | Some colInfo =>
      if (VAColumn.type colInfo =? "date")%string then
        for_state (length arrayData) 0 (convert_cell colInfo c) arrayData
      else (arrayData, Next)
  end.

Definition convertDateColumns (resultData : option VAMessage)
  : option VAMessage * Completion unit :=
  match resultData with
  | None => (None, Normal ())
  | Some m =>
      let columnsInfo := columns m in
      match for_state (length columnsInfo) 0 (convert_column columnsInfo)
              (data m) with
      | (arrayData, Raise e) => (Some (with_table m columnsInfo arrayData), Throw e)
      | (arrayData, _) => (Some (with_table m columnsInfo arrayData), Normal ())
      end
  end.

(** ** getVAParameters (lines 187-195)

    The function fills a plain object, [{}], by [parameters[label] = value].
    Such an object is its own properties and its prototype.  The name
    ["__proto__"] is no property of the object itself but the accessor that
    [Object.prototype] has: an assignment to it stores nothing, replaces
    the prototype when the value is an array and does nothing when the
    value is a string.  Every other name is written as an own property,
    also one the prototype has.  A read [o[k]] finds the own property
    and, failing that, what the prototype chain has; [own] is the own
    properties alone. *)

Inductive Prototype :=
| ProtoObject
| ProtoArray (l : list string).

Record ParamObject := mkParamObject {
  own : gmap string ParamValue;
  prototype : Prototype }.

(** [parameters[label] = value] *)
Definition assign (parameters : ParamObject) (label : string)
    (value : ParamValue) : ParamObject :=
  if (label =? "__proto__")%string then
    match value with
    | PArray l => mkParamObject (own parameters) (ProtoArray l)
    | PString _ => parameters
    end
  else mkParamObject (<[label := value]> (own parameters)) (prototype parameters).

Definition getVAParameters (resultData : option VAMessage)
  : Completion ParamObject :=
  match resultData with
  | None => Throw TypeError
  | Some m =>
      Normal
        match parameters m with
        | Some ps =>
            foldl (λ parameters parameter,
                     assign parameters (VAParameter.label parameter)
                       (VAParameter.value parameter))
                  (mkParamObject ∅ ProtoObject) ps
        | None => mkParamObject ∅ ProtoObject
        end
  end.

(** ** setupResizeListener (lines 49-68)

    The host is a window with its listeners and its timers.  Time is
    counted in the units of [setTimeout]'s delay; a timer runs at the
    tick it falls due.  A callback is known by a number and its calls
    are logged; what a callback does is its own. *)

Module Resize.

Record Timer := mkTimer {
  timer_id : nat;
  timer_due : nat;
  (* the [resizeEndEvent] object its function dispatches *)
  timer_event : nat }.

Record Window := mkWindow {
  (* [var _timeoutID], [undefined] until the first resize *)
  _timeoutID : option nat;
  now : nat;
  next_timer : nat;
  timers : list Timer;
  (* the callbacks behind the ['resizeEndEvent'] listeners *)
  resizeEnd_listeners : list nat;
  (* the ['resize'] listeners, each by the event object it closes over *)
  resize_listeners : list nat;
  next_event : nat;
  calls : list (nat * nat) }.

Definition initial : Window := mkWindow None 0 1 [] [] [] 0 [].

(** [setTimeout(f, delay)], [f] dispatching the event object [ev]. *)
Definition setTimeout (ev delay : nat) (w : Window) : nat * Window :=
  (next_timer w,
   mkWindow (_timeoutID w) (now w) (S (next_timer w))
     (timers w ++ [mkTimer (next_timer w) (now w + delay) ev])
     (resizeEnd_listeners w) (resize_listeners w) (next_event w) (calls w)).

Definition clearTimeout (id : nat) (w : Window) : Window :=
  mkWindow (_timeoutID w) (now w) (next_timer w)
    (filter (λ t, timer_id t ≠ id) (timers w))
    (resizeEnd_listeners w) (resize_listeners w) (next_event w) (calls w).

Definition set_timeoutID (id : nat) (w : Window) : Window :=
  mkWindow (Some id) (now w) (next_timer w) (timers w)
    (resizeEnd_listeners w) (resize_listeners w) (next_event w) (calls w).

(** The ['resize'] listener of lines 60-67; a timer handle is truthy. *)
Definition resize_listener (ev : nat) (w : Window) : Window :=
  let w :=
    match _timeoutID w with
    | Some id => clearTimeout id w
    | None => w
    end in
  let '(id, w) := setTimeout ev 25 w in
  set_timeoutID id w.

Definition setupResizeListener (callback : nat) (w : Window) : Window :=
  mkWindow (_timeoutID w) (now w) (next_timer w) (timers w)
    (resizeEnd_listeners w ++ [callback])
    (resize_listeners w ++ [next_event w])
    (S (next_event w)) (calls w).

(** [window.dispatchEvent(resizeEndEvent)]: every ['resizeEndEvent']
    listener runs, whichever event object is dispatched. *)
Definition dispatch_resizeEnd (w : Window) : Window :=
  mkWindow (_timeoutID w) (now w) (next_timer w) (timers w)
    (resizeEnd_listeners w) (resize_listeners w) (next_event w)
    (calls w ++ map (λ callback, (now w, callback)) (resizeEnd_listeners w)).

(** The host delivers a raw resize to every ['resize'] listener. *)
Definition raw_resize (w : Window) : Window :=
  foldl (λ w ev, resize_listener ev w) w (resize_listeners w).

(** One unit of time passes, then the timers that are due run. *)
Definition tick (w : Window) : Window :=
  let t := S (now w) in
  let due := filter (λ x, (timer_due x ≤ t)%nat) (timers w) in
  let w :=
    mkWindow (_timeoutID w) t (next_timer w)
      (filter (λ x, ¬ (timer_due x ≤ t)%nat) (timers w))
      (resizeEnd_listeners w) (resize_listeners w) (next_event w) (calls w) in
  foldl (λ w _, dispatch_resizeEnd w) w due.

Inductive HostEvent :=
| Setup (callback : nat)
| RawResize
| Elapse (n : nat).

Definition step (w : Window) (e : HostEvent) : Window :=
  match e with
  | Setup callback => setupResizeListener callback w
  | RawResize => raw_resize w
  | Elapse n => Nat.iter n tick w
  end.

Definition run (es : list HostEvent) (w : Window) : Window := foldl step w es.

(** A burst: a raw resize, then one more after each gap. *)
Fixpoint burst (gaps : list nat) : list HostEvent :=
  match gaps with
  | [] => [RawResize]
  | g :: gaps => RawResize :: Elapse g :: burst gaps
  end.

(** The windows the module can be in: those the host reaches from the
    first one. *)
Definition reachable (w : Window) : Prop := ∃ es, w = run es initial.

(** One timer is pending, due at [T], and [_timeoutID] is its handle. *)
Definition armed (T : nat) (w : Window) : Prop :=
  ∃ id ev, timers w = [mkTimer id T ev] ∧ _timeoutID w = Some id.

(** Every pending timer is the one [_timeoutID] names. *)
Definition coalesced (w : Window) : Prop :=
  timers w = [] ∨ ∃ T, armed T w.

Definition well_formed (w : Window) : Prop :=
  length (resize_listeners w) = length (resizeEnd_listeners w)
  ∧ ∀ t, t ∈ timers w → timer_id t < next_timer w.

End Resize.

(** ** Specification-side definitions *)

(** The cell at row [r], column [c]: [arrayData[r][c]]. *)
Definition cell_at (arrayData : list Row) (r c : nat) : option Cell :=
  arrayData !! r ≫= (.!! c).

(** The core invariant of the data model: every row is as long as the
    column list. *)
Definition aligned (m : VAMessage) : Prop :=
  Forall (λ cells : Row, length cells = length (columns m)) (data m).

(** The selection entries one brush column at [c] contributes, for rows
    numbered from [r] on. *)
Fixpoint selected (c r : nat) (arrayData : list Row) : list Selection :=
  match arrayData with
  | [] => []
  | cells :: rest =>
      (if not_zero (cells !! c) then [mkSelection r] else [])
        ++ selected c (S r) rest
  end.

(** A step of the conversion keeps the number of rows, the length of
    every row and the cells of the other columns, however it ends. *)
Definition same_shape (c : nat) (old new : list Row) : Prop :=
  length new = length old
  ∧ (∀ r, length <$> new !! r = length <$> old !! r)
  ∧ (∀ r c', c' ≠ c → cell_at new r c' = cell_at old r c').

Definition is_date (colInfo : VAColumn.t) : Prop := VAColumn.type colInfo = "date".

(** What the cell of a date column becomes. *)
Definition converted (colInfo : VAColumn.t) (s : string) : Cell :=
  CDate (rearrange colInfo (JSString.trim s)).

(** Every cell of every date column is a string. *)
Definition date_cells_are_strings (columnsInfo : list VAColumn.t)
    (arrayData : list Row) : Prop :=
  ∀ c colInfo r,
    columnsInfo !! c = Some colInfo → is_date colInfo →
    r < length arrayData → ∃ s, cell_at arrayData r c = Some (CStr s).

(** The check of [date_cells_are_strings], by evaluation. *)
Definition is_string (cell : option Cell) : bool :=
  match cell with
  | Some (CStr _) => true
  | _ => false
  end.

Definition date_cells_checked (columnsInfo : list VAColumn.t)
    (arrayData : list Row) : bool :=
  forallb (λ cells : Row,
    forallb (λ c,
      match columnsInfo !! c with
      | Some colInfo =>
          if (VAColumn.type colInfo =? "date")%string
          then is_string (cells !! c) else true
      | None => true
      end) (seq 0 (length columnsInfo))) arrayData.

(** The four calls on a message, and the message each leaves behind:
    [validateRoles] and [getVAParameters] only read theirs. *)
Inductive Operation :=
| ValidateRoles (expectedTypes : list string) (optionalTypes : OptionalTypes)
| InitializeSelections
| ConvertDateColumns
| GetVAParameters.

Definition message_after (op : Operation) (m : VAMessage) : option VAMessage :=
  match op with
  | ValidateRoles _ _ => Some m
  | InitializeSelections => (initializeSelections (Some m)).1
  | ConvertDateColumns => (convertDateColumns (Some m)).1
  | GetVAParameters => Some m
  end.

(** The value the last parameter labelled [k] carries. *)
Definition last_value (k : string) (ps : list VAParameter.t) : option ParamValue :=
  VAParameter.value <$> last (filter (λ p, VAParameter.label p = k) ps).

(** ** Sample tables *)

Definition sample_column (ty : string) (usage : option string)
    (fmt : option VAFormat.t) : VAColumn.t :=
  VAColumn.mk "c" "Column" ty usage None fmt.

Definition sample_message (cols : list VAColumn.t) (rows : list Row)
  : VAMessage :=
  mkMessage "1" "dd40" 0 0 rows cols None.

Definition ddmmyy8_column : VAColumn.t :=
  sample_column "date" None (Some (VAFormat.mk "DDMMYY" (Some 8%Z) None "DDMMYY8")).

(** A format whose [name] says DDMMYY8 and whose [formatString] does not. *)
Definition named_ddmmyy8_column : VAColumn.t :=
  sample_column "date" None (Some (VAFormat.mk "DDMMYY8" None None "DDMMYY")).

Definition brush_column : VAColumn.t :=
  sample_column "number" (Some "brush") None.

(** ** Further definitions for the properties of the calls *)

(** The type tags of the columns, in order. *)
Definition column_types (m : VAMessage) : list string :=
  VAColumn.type <$> columns m.

(** What the brush scan keeps of a list laid out like the columns, given
    which columns are brush columns: the element at a brush column goes,
    and the one after it stays without being looked at. *)
Fixpoint scan_keep {A} (brush : list bool) (l : list A) : list A :=
  match brush with
  | [] => l
  | false :: brush' =>
      match l with
      | [] => []
      | x :: l' => x :: scan_keep brush' l'
      end
  | true :: brush' =>
      match brush', tail l with
      | _ :: brush'', x :: l' => x :: scan_keep brush'' l'
      | _, l' => l'
      end
  end.

Definition not_brush (col : VAColumn.t) : Prop := is_brush col = false.
#[global] Instance not_brush_dec (col : VAColumn.t) : Decision (not_brush col) :=
  decide (is_brush col = false).

(** No brush column comes right after another. *)
Definition no_adjacent_brush (cols : list VAColumn.t) : Prop :=
  ∀ i a b, cols !! i = Some a → cols !! S i = Some b →
           is_brush a = true → is_brush b = false.

(** The cells of a row that sit at the columns that are not brush
    columns. *)
Definition kept_cells (cols : list VAColumn.t) (cells : Row) : Row :=
  (filter (λ p : VAColumn.t * Cell, not_brush p.1) (zip cols cells)).*2.

(** [new] is [old] but for strings of date columns, turned into dates. *)
Definition only_converted (columnsInfo : list VAColumn.t) (old new : list Row)
  : Prop :=
  ∀ r c,
    cell_at new r c = cell_at old r c
    ∨ ∃ colInfo s,
        columnsInfo !! c = Some colInfo ∧ is_date colInfo
        ∧ cell_at old r c = Some (CStr s)
        ∧ cell_at new r c = Some (converted colInfo s).

(** The rows below [r] of column [c] are converted, the others are as in
    [base]. *)
Definition rows_converted (colInfo : VAColumn.t) (c r : nat)
    (base st : list Row) : Prop :=
  same_shape c base st
  ∧ (∀ r', r ≤ r' → st !! r' = base !! r')
  ∧ (∀ r' str, r' < r → cell_at base r' c = Some (CStr str) →
               cell_at st r' c = Some (converted colInfo str)).

(** The date columns below [j] are converted, the columns from [j] on are
    as in [base]. *)
Definition columns_converted (cols : list VAColumn.t) (j : nat)
    (base st : list Row) : Prop :=
  length st = length base
  ∧ (∀ r c, j ≤ c → cell_at st r c = cell_at base r c)
  ∧ (∀ c colInfo r str, c < j →
       cols !! c = Some colInfo → is_date colInfo →
       cell_at base r c = Some (CStr str) →
       cell_at st r c = Some (converted colInfo str)).

(** The object [getVAParameters] builds from a parameter array. *)
Definition parameters_object (ps : list VAParameter.t) : ParamObject :=
  foldl (λ parameters parameter,
           assign parameters (VAParameter.label parameter)
             (VAParameter.value parameter))
        (mkParamObject ∅ ProtoObject) ps.

(** At most one timer is pending; it is the one [Resize._timeoutID] names and it
    is due within the next 25 time units; without a ['resize'] listener
    none is. *)
Definition debounced (w : Resize.Window) : Prop :=
  length (Resize.timers w) ≤ 1
  ∧ (∀ t, t ∈ Resize.timers w →
          Resize._timeoutID w = Some (Resize.timer_id t)
          ∧ Resize.now w < Resize.timer_due t ≤ Resize.now w + 25)
  ∧ (Resize.resize_listeners w = [] → Resize.timers w = []).

(** The raw resizes of [gaps], each followed by its gap. *)
Definition spaced (gaps : list nat) : list Resize.HostEvent :=
  gaps ≫= λ g, [Resize.RawResize; Resize.Elapse g].

(** One delivery to every callback 25 units after each resize. *)
Fixpoint deliveries (t : nat) (gaps : list nat) (callbacks : list nat)
  : list (nat * nat) :=
  match gaps with
  | [] => []
  | g :: gaps =>
      map (λ callback, (t + 25, callback)) callbacks
        ++ deliveries (t + g) gaps callbacks
  end.


(** ** Further sample tables *)

Definition separated_brush_message : VAMessage :=
  sample_message
    [brush_column; sample_column "number" None None; brush_column]
    [[CNum 1; CNum 7; CNum 0]; [CNum 0; CNum 8; CNum 3]].

Definition single_brush_message : VAMessage :=
  sample_message
    [sample_column "number" None None; brush_column;
     sample_column "string" None None]
    [[CNum 1; CNum 0; CStr "a"]; [CNum 2; CNum 5; CStr "b"]].

Definition date9_column : VAColumn.t :=
  sample_column "date" None (Some (VAFormat.mk "DATE" (Some 9%Z) None "DATE9")).

(** Two date columns; the second cell of the second row is a number. *)
Definition bad_cell_message : VAMessage :=
  sample_message [ddmmyy8_column; ddmmyy8_column]
    [[CStr "01/02/2003"; CStr "04/05/2006"];
     [CStr "07/08/2009"; CNum 5]].

Definition parameters_message (ps : list VAParameter.t) : VAMessage :=
  mkMessage "1" "dd40" 0 0 [] [] (Some ps).

(** ** The examples of the documentation, by evaluation *)

Example extractor_sample :
  initializeSelections
    (Some (sample_message [sample_column "number" None None; brush_column]
             [[CNum 1; CNum 0]; [CNum 2; CNum 5]]))
  = (Some (sample_message [sample_column "number" None None]
             [[CNum 1]; [CNum 2]]),
     Normal (Some [mkSelection 1])).
Proof. reflexivity. Qed.

Example date9_sample :
  convertDateColumns
    (Some (sample_message
             [sample_column "date" None
                (Some (VAFormat.mk "DATE" (Some 9%Z) None "DATE9"))]
             [[CStr "15FEB23"]]))
  = (Some (sample_message
             [sample_column "date" None
                (Some (VAFormat.mk "DATE" (Some 9%Z) None "DATE9"))]
             [[CDate "15 FEB 23"]]),
     Normal ()).
Proof. reflexivity. Qed.

Example validator_samples :
  validateRoles
    (Some (sample_message [sample_column "string" None None;
                           sample_column "number" None None] []))
    ["string"; "number"] OptNull = Normal true
  ∧ validateRoles
      (Some (sample_message [sample_column "string" None None;
                             sample_column "number" None None] []))
      ["string"] OptNull = Normal false
  ∧ validateRoles
      (Some (sample_message [sample_column "string" None None;
                             sample_column "number" None None;
                             sample_column "number" None None] []))
      ["string"] (OptType "number") = Normal true
  ∧ validateRoles
      (Some (sample_message [sample_column "string" None None] []))
      ["string"; "number"] OptNull = Normal false.
Proof. by split_and!. Qed.

Example collapser_sample :
  getVAParameters
    (Some (parameters_message
             [VAParameter.mk "a" (PString "1");
              VAParameter.mk "b" (PArray ["x"; "y"]);
              VAParameter.mk "a" (PString "2")]))
  = Normal (mkParamObject
              (<["a" := PString "2"]> (<["b" := PArray ["x"; "y"]]> ∅))
              ProtoObject).
Proof. reflexivity. Qed.

Example debounce_sample :
  Resize.calls
    (Resize.run
       [Resize.Setup 7; Resize.RawResize; Resize.Elapse 10; Resize.RawResize;
        Resize.Elapse 24; Resize.RawResize; Resize.Elapse 25;
        Resize.RawResize; Resize.Elapse 40]
       Resize.initial)
  = [(59, 7); (84, 7)].
Proof. reflexivity. Qed.

(** ** Loops *)

Section Loops.
Context {St A : Type}.
Implicit Types (body : nat → St → St * Control A) (P : nat → St → Prop).

Lemma for_state_inv (Q : St → Prop) body n c st :
  Q st → (∀ i s, Q s → Q (body i s).1) → Q (for_state n c body st).1.
Proof.
  intros Hst Hbody. revert c st Hst.
  induction n as [|n IH]; intros c st Hst; simpl; [done|].
  specialize (Hbody c st Hst).
  destruct (body c st) as [st' [| |]]; simpl in *; auto.
Qed.

Lemma for_state_Next P body n c st st' :
  for_state n c body st = (st', Next) →
  P c st →
  (∀ i s s', c ≤ i < c + n → P i s → body i s = (s', Next) → P (S i) s') →
  P (c + n) st'.
Proof.
  revert c st. induction n as [|n IH]; intros c st Hrun Hst Hbody; simpl in *.
  - replace (c + 0) with c by lia. congruence.
  - destruct (body c st) as [s1 k] eqn:Hb.
    destruct k; try discriminate.
    replace (c + S n) with (S c + n) by lia.
    apply (IH (S c) s1 Hrun).
    + apply (Hbody c st); [lia|done..].
    + intros i s s' Hi. apply Hbody. lia.
Qed.

Lemma for_state_runs P body n c st :
  P c st →
  (∀ i s, c ≤ i < c + n → P i s → ∃ s', body i s = (s', Next) ∧ P (S i) s') →
  ∃ st', for_state n c body st = (st', Next) ∧ P (c + n) st'.
Proof.
  revert c st. induction n as [|n IH]; intros c st Hst Hbody; simpl.
  - exists st. by replace (c + 0) with c by lia.
  - destruct (Hbody c st) as (s1 & -> & Hs1); [lia|done|].
    replace (c + S n) with (S c + n) by lia.
    apply IH; [done|]. intros i s Hi. apply Hbody. lia.
Qed.

Lemma for_state_stops P body n c st i0 :
  c ≤ i0 < c + n →
  P c st →
  (∀ i s s', c ≤ i < i0 → P i s → body i s = (s', Next) → P (S i) s') →
  (∀ s, P i0 s → (body i0 s).2 ≠ Next) →
  (for_state n c body st).2 ≠ Next.
Proof.
  revert c st. induction n as [|n IH]; intros c st Hi0 Hst Hbody Hstop; simpl.
  - lia.
  - destruct (body c st) as [s1 k] eqn:Hb.
    destruct (decide (c = i0)) as [->|Hne].
    + specialize (Hstop st Hst). rewrite Hb in Hstop. by destruct k.
    + destruct k; try done.
      apply IH; [lia| |intros i s s' Hi; apply Hbody; lia|done].
      apply (Hbody c st); [lia|done..].
Qed.

Lemma for_state_no_return body n c st a :
  (∀ i s, (body i s).2 ≠ Return a) → (for_state n c body st).2 ≠ Return a.
Proof.
  intros Hbody. revert c st. induction n as [|n IH]; intros c st; simpl; [done|].
  specialize (Hbody c st).
  destruct (body c st) as [s1 [| |]]; simpl in *; auto.
Qed.

End Loops.

(** ** The brush scan *)

Lemma brush_rows_loop c seen todo selections :
  for_state (length todo) (length seen) (brush_row c) (seen ++ todo, selections)
  = ((seen ++ map (delete c) todo,
      selections ++ selected c (length seen) todo), Next).
Proof.
  revert seen selections.
  induction todo as [|cells rest IH]; intros seen selections; simpl.
  - by rewrite !app_nil_r.
  - rewrite list_lookup_middle by done.
    rewrite insert_app_r_alt, Nat.sub_diag by lia. simpl.
    rewrite (cons_middle (delete c cells) seen), app_assoc.
    replace (S (length seen)) with (length (seen ++ [delete c cells]))
      by (rewrite length_app; simpl; lia).
    rewrite IH, length_app. simpl.
    destruct (not_zero (cells !! c)); by rewrite <- ?app_assoc.
Qed.

Lemma brush_rows c arrayData selections :
  for_state (length arrayData) 0 (brush_row c) (arrayData, selections)
  = ((map (delete c) arrayData, selections ++ selected c 0 arrayData), Next).
Proof. apply (brush_rows_loop c [] arrayData selections). Qed.

(** One turn of the loop over the columns. *)
Lemma brush_scan_turn c columnsInfo arrayData selections :
  brush_scan c columnsInfo arrayData selections =
  match columnsInfo !! c with
  | Some col =>
      if is_brush col then
        brush_scan (S c) (delete c columnsInfo) (map (delete c) arrayData)
          (selections ++ selected c 0 arrayData)
      else brush_scan (S c) columnsInfo arrayData selections
  | None => ((columnsInfo, arrayData, selections), Normal ())
  end.
Proof.
  rewrite brush_scan_equation_1. 
  destruct (decide (c < length columnsInfo)) as [Hlt|Hge]; simpl.
  - destruct (lookup_lt_is_Some_2 _ _ Hlt) as [col Hcol]. rewrite Hcol. simpl.
    destruct (is_brush col); simpl; [|done].
    by rewrite brush_rows.
  - by rewrite lookup_ge_None_2 by lia.
Qed.

(** Induction along the turns of the scan. *)
Lemma brush_scan_turns
    (P : nat → list VAColumn.t → list Row → list Selection →
         (list VAColumn.t * list Row * list Selection) * Completion unit → Prop) :
  (∀ c cols rows sels, cols !! c = None →
     P c cols rows sels ((cols, rows, sels), Normal ())) →
  (∀ c cols rows sels col, cols !! c = Some col → is_brush col = false →
     P (S c) cols rows sels (brush_scan (S c) cols rows sels) →
     P c cols rows sels (brush_scan (S c) cols rows sels)) →
  (∀ c cols rows sels col, cols !! c = Some col → is_brush col = true →
     let cols' := delete c cols in
     let rows' := map (delete c) rows in
     let sels' := sels ++ selected c 0 rows in
     P (S c) cols' rows' sels' (brush_scan (S c) cols' rows' sels') →
     P c cols rows sels (brush_scan (S c) cols' rows' sels')) →
  ∀ c cols rows sels, P c cols rows sels (brush_scan c cols rows sels).
Proof.
  intros Hend Hkeep Hdrop c cols.
  remember (length cols - c) as k eqn:Hk. revert c cols Hk.
  induction k as [k IH] using lt_wf_ind. intros c cols Hk rows sels.
  rewrite brush_scan_turn.
  destruct (cols !! c) as [col|] eqn:Hcol; [|by apply Hend].
  pose proof (lookup_lt_Some _ _ _ Hcol) as Hlt.
  destruct (is_brush col) eqn:Hb.
  - apply (Hdrop _ _ _ _ col); [done..|].
    apply (IH (length (delete c cols) - S c)); [|done].
    rewrite length_delete by eauto. lia.
  - apply (Hkeep _ _ _ _ col); [done..|].
    apply (IH (length cols - S c)); [lia|done].
Qed.

Lemma brush_scan_normal c cols rows sels :
  (brush_scan c cols rows sels).2 = Normal ().
Proof. apply (brush_scan_turns (λ _ _ _ _ res, res.2 = Normal ())); auto. Qed.

Lemma brush_scan_aligned c cols rows sels :
  Forall (λ cells : Row, length cells = length cols) rows →
  Forall (λ cells : Row, length cells = length (brush_scan c cols rows sels).1.1.1)
    (brush_scan c cols rows sels).1.1.2.
Proof.
  apply (brush_scan_turns (λ c cols rows sels res,
    Forall (λ cells : Row, length cells = length cols) rows →
    Forall (λ cells : Row, length cells = length res.1.1.1) res.1.1.2));
    clear; simpl; [done..|].
  intros c cols rows sels col Hcol _ IH Hal. apply IH.
  pose proof (lookup_lt_Some _ _ _ Hcol) as Hlt.
  apply Forall_map. eapply Forall_impl; [exact Hal|].
  intros cells Hlen. simpl in *.
  rewrite !length_delete; [lia|eauto|].
  apply lookup_lt_is_Some_2. lia.
Qed.

(** Without a brush column the scan changes nothing. *)
Lemma brush_scan_no_brush c cols rows sels :
  Forall (λ col, is_brush col = false) cols →
  brush_scan c cols rows sels = ((cols, rows, sels), Normal ()).
Proof.
  apply (brush_scan_turns (λ c cols rows sels res,
    Forall (λ col, is_brush col = false) cols →
    res = ((cols, rows, sels), Normal ()))); [done|auto|].
  clear. intros c cols rows sels col Hcol Hb cols' rows' sels' _ Hall.
  pose proof (Forall_lookup_1 _ _ _ _ Hall Hcol) as Hnb. simpl in Hnb.
  congruence.
Qed.

Lemma initializeSelections_no_brush m :
  Forall (λ col, is_brush col = false) (columns m) →
  initializeSelections (Some m)
  = (Some (with_table m (columns m) (data m)), Normal (Some [])).
Proof.
  intros Hall. unfold initializeSelections.
  by rewrite brush_scan_no_brush.
Qed.

(** ** The date conversion *)

Lemma convert_cell_not_return colInfo c r arrayData a :
  (convert_cell colInfo c r arrayData).2 ≠ Return a.
Proof.
  unfold convert_cell.
  destruct (arrayData !! r) as [cells|]; [|done].
  by destruct (cells !! c) as [[]|].
Qed.

Lemma convert_column_not_return columnsInfo c arrayData a :
  (convert_column columnsInfo c arrayData).2 ≠ Return a.
Proof.
  unfold convert_column.
  destruct (columnsInfo !! c) as [colInfo|]; [|done].
  destruct (_ =? _)%string; [|done].
  apply for_state_no_return. intros. apply convert_cell_not_return.
Qed.

Lemma cell_at_insert_row arrayData r cells c' x r' c :
  arrayData !! r = Some cells →
  cell_at (<[r := <[c' := x]> cells]> arrayData) r' c
  = if decide (r' = r ∧ c = c' ∧ c < length cells) then Some x
    else cell_at arrayData r' c.
Proof.
  intros Hr. unfold cell_at.
  pose proof (lookup_lt_Some _ _ _ Hr) as Hlt.
  destruct (decide (r' = r)) as [->|Hne].
  - rewrite list_lookup_insert_eq, Hr by done. simpl.
    destruct (decide (c = c')) as [->|Hc].
    + case_decide as Hd.
      * by rewrite list_lookup_insert_eq by lia.
      * rewrite list_insert_ge by lia. done.
    + rewrite list_lookup_insert_ne by done.
      case_decide; [lia|done].
  - rewrite list_lookup_insert_ne by done.
    case_decide; [lia|done].
Qed.

Lemma same_shape_refl c rows : same_shape c rows rows.
Proof. by repeat split. Qed.

Lemma convert_cell_shape colInfo c r old arrayData :
  same_shape c old arrayData →
  same_shape c old (convert_cell colInfo c r arrayData).1.
Proof.
  intros (Hlen & Hrows & Hcells). unfold convert_cell.
  destruct (arrayData !! r) as [cells|] eqn:Hr; [|done].
  destruct (cells !! c) as [[s| |]|] eqn:Hc; try done. simpl.
  split; [by rewrite length_insert|]. split.
  - intros r'. rewrite <- Hrows.
    destruct (decide (r' = r)) as [->|Hne].
    + rewrite list_lookup_insert_eq by (by eapply lookup_lt_Some).
      rewrite Hr. simpl. by rewrite length_insert.
    + by rewrite list_lookup_insert_ne.
  - intros r' c' Hne. rewrite cell_at_insert_row by done.
    case_decide as Hd; [by destruct Hd as (_ & ? & _)|auto].
Qed.

Lemma convert_column_shape columnsInfo c arrayData :
  same_shape c arrayData (convert_column columnsInfo c arrayData).1.
Proof.
  unfold convert_column.
  destruct (columnsInfo !! c) as [colInfo|]; [|apply same_shape_refl].
  destruct (_ =? _)%string; [|apply same_shape_refl].
  apply for_state_inv; [apply same_shape_refl|].
  intros. by apply convert_cell_shape.
Qed.

Lemma convert_column_strings columnsInfo c colInfo arrayData :
  columnsInfo !! c = Some colInfo → is_date colInfo →
  (∀ r, r < length arrayData → ∃ s, cell_at arrayData r c = Some (CStr s)) →
  ∃ arrayData',
    convert_column columnsInfo c arrayData = (arrayData', Next)
    ∧ ∀ r s, cell_at arrayData r c = Some (CStr s) →
             cell_at arrayData' r c = Some (converted colInfo s).
Proof.
  intros Hcol Hdate Hstr. unfold convert_column, is_date in *.
  rewrite Hcol, Hdate. simpl.
  destruct (for_state_runs (A := unit)
    (λ i s, same_shape c arrayData s
            ∧ (∀ r, i ≤ r → s !! r = arrayData !! r)
            ∧ (∀ r str, r < i → cell_at arrayData r c = Some (CStr str) →
                 cell_at s r c = Some (converted colInfo str)))
    (convert_cell colInfo c) (length arrayData) 0 arrayData)
    as (rows' & Hrun & _ & _ & Hdone).
  - split; [apply same_shape_refl|]. split; [done|]. intros; lia.
  - intros i s Hi (Hshape & Hrest & Hdone).
    destruct (Hstr i) as [str Hcell]; [lia|].
    pose proof (convert_cell_shape colInfo c i _ _ Hshape) as Hshape'.
    revert Hshape'. unfold convert_cell.
    assert (is_Some (arrayData !! i)) as [cells Hi'].
    { apply lookup_lt_is_Some_2. lia. }
    assert (cells !! c = Some (CStr str)) as Hc.
    { unfold cell_at in Hcell. by rewrite Hi' in Hcell. }
    rewrite (Hrest i), Hi', Hc by lia. simpl. intros Hshape'.
    eexists. split; [done|]. split; [done|]. split.
    + intros r Hr. rewrite list_lookup_insert_ne by lia. apply Hrest. lia.
    + intros r str' Hr Hcell'.
      rewrite cell_at_insert_row by (rewrite Hrest by lia; done).
      case_decide as Hd.
      * destruct Hd as (-> & _). unfold converted. congruence.
      * apply Hdone; [|done].
        destruct (decide (r = i)) as [->|]; [|lia].
        exfalso. apply Hd. split_and!; [done..|]. by eapply lookup_lt_Some.
  - exists rows'. split; [done|]. intros r s Hcell. apply Hdone; [|done].
    unfold cell_at in Hcell. simpl.
    destruct (arrayData !! r) eqn:Hr; [|done]. by eapply lookup_lt_Some.
Qed.

Lemma convert_column_throws columnsInfo c colInfo arrayData r :
  columnsInfo !! c = Some colInfo → is_date colInfo →
  r < length arrayData →
  (∀ s, cell_at arrayData r c ≠ Some (CStr s)) →
  (convert_column columnsInfo c arrayData).2 = Raise TypeError.
Proof.
  intros Hcol Hdate Hr Hbad. unfold convert_column, is_date in *.
  rewrite Hcol, Hdate. simpl.
  assert ((for_state (length arrayData) 0 (convert_cell colInfo c) arrayData).2
          ≠ Next) as Hstop.
  { apply (for_state_stops (λ _ s, s !! r = arrayData !! r) _ _ _ _ r);
      [lia|done| |].
    - intros i s s' Hi Hs. unfold convert_cell.
      destruct (s !! i) as [cells|]; [|done].
      destruct (cells !! c) as [[]|]; try done.
      intros [= <-]. by rewrite list_lookup_insert_ne by lia.
    - intros s Hs. unfold convert_cell. rewrite Hs.
      destruct (arrayData !! r) as [cells|] eqn:Hcells; [|done].
      destruct (cells !! c) as [[str| |]|] eqn:Hc; try done.
      destruct (Hbad str). unfold cell_at. by rewrite Hcells. }
  pose proof (for_state_no_return (convert_cell colInfo c) (length arrayData)
                0 arrayData () (λ i s, convert_cell_not_return colInfo c i s ()))
    as Hret.
  destruct (for_state _ _ _ _) as [rows' [|[]|[]]]; done.
Qed.

Section ConvertLoop.
Context (columnsInfo : list VAColumn.t) (arrayData : list Row).

Lemma convert_loop_runs :
  date_cells_are_strings columnsInfo arrayData →
  ∃ arrayData',
    for_state (length columnsInfo) 0 (convert_column columnsInfo) arrayData
    = (arrayData', Next)
    ∧ length arrayData' = length arrayData
    ∧ (∀ r c, (∀ colInfo, columnsInfo !! c = Some colInfo → ¬ is_date colInfo) →
              cell_at arrayData' r c = cell_at arrayData r c)
    ∧ (∀ c colInfo r s,
         columnsInfo !! c = Some colInfo → is_date colInfo →
         cell_at arrayData r c = Some (CStr s) →
         cell_at arrayData' r c = Some (converted colInfo s)).
Proof.
  intros Hstr.
  destruct (for_state_runs (A := unit)
    (λ j s, length s = length arrayData
            ∧ (∀ r c, j ≤ c → cell_at s r c = cell_at arrayData r c)
            ∧ (∀ r c, (∀ colInfo, columnsInfo !! c = Some colInfo →
                                  ¬ is_date colInfo) →
                      cell_at s r c = cell_at arrayData r c)
            ∧ (∀ c colInfo r str, c < j →
                 columnsInfo !! c = Some colInfo → is_date colInfo →
                 cell_at arrayData r c = Some (CStr str) →
                 cell_at s r c = Some (converted colInfo str)))
    (convert_column columnsInfo) (length columnsInfo) 0 arrayData)
    as (rows' & Hrun & Hlen & _ & Hother & Hdone).
  - split_and!; [done..|]. intros; lia.
  - intros j s Hj (Hlen & Hrest & Hother & Hdone).
    assert (is_Some (columnsInfo !! j)) as [colInfo Hcol].
    { apply lookup_lt_is_Some_2. lia. }
    pose proof (convert_column_shape columnsInfo j s) as (Hlen' & _ & Hcells).
    destruct (decide (is_date colInfo)) as [Hdate|Hnot].
    + destruct (convert_column_strings columnsInfo j colInfo s Hcol Hdate)
        as (s' & Hs' & Hconv).
      { intros r Hr. rewrite Hrest by done. apply (Hstr j colInfo); [done..|lia]. }
      rewrite Hs' in *. simpl in *. exists s'. split; [done|]. split_and!.
      * lia.
      * intros r c Hc. rewrite Hcells by lia. apply Hrest. lia.
      * intros r c Hc. rewrite Hcells; [by apply Hother|].
        intros ->. by apply (Hc colInfo).
      * intros c colInfo' r str Hc Hcol' Hdate' Hcell.
        destruct (decide (c = j)) as [->|Hne].
        -- assert (colInfo' = colInfo) as -> by congruence.
           apply Hconv. by rewrite Hrest.
        -- rewrite Hcells by done. apply (Hdone c); [lia|done..].
    + exists s. unfold convert_column. rewrite Hcol.
      destruct (String.eqb_spec (VAColumn.type colInfo) "date"); [done|].
      split; [done|]. split_and!; [done| |done|].
      * intros r c Hc. apply Hrest. lia.
      * intros c colInfo' r str Hc Hcol' Hdate' Hcell.
        destruct (decide (c = j)) as [->|Hne]; [congruence|].
        apply (Hdone c); [lia|done..].
  - exists rows'. split_and!; [done..|].
    intros c colInfo r s Hcol. apply Hdone; [|done].
    by eapply lookup_lt_Some.
Qed.

Lemma convert_loop_throws c colInfo r :
  columnsInfo !! c = Some colInfo → is_date colInfo →
  r < length arrayData →
  (∀ s, cell_at arrayData r c ≠ Some (CStr s)) →
  (for_state (length columnsInfo) 0 (convert_column columnsInfo) arrayData).2
  = Raise TypeError.
Proof.
  intros Hcol Hdate Hr Hbad.
  assert ((for_state (length columnsInfo) 0 (convert_column columnsInfo)
             arrayData).2 ≠ Next) as Hstop.
  { apply (for_state_stops
      (λ _ s, length s = length arrayData
              ∧ cell_at s r c = cell_at arrayData r c) _ _ _ _ c).
    - split; [lia|]. by eapply lookup_lt_Some.
    - done.
    - intros i s s' Hi (Hlen & Hcell) Hbody.
      pose proof (convert_column_shape columnsInfo i s) as (Hlen' & _ & Hcells).
      rewrite Hbody in *. simpl in *. split; [lia|].
      rewrite Hcells by lia. done.
    - intros s (Hlen & Hcell).
      rewrite (convert_column_throws columnsInfo c colInfo s r); [done..|lia|].
      by rewrite Hcell. }
  pose proof (for_state_no_return (convert_column columnsInfo)
                (length columnsInfo) 0 arrayData ()
                (λ i s, convert_column_not_return columnsInfo i s ()))
    as Hret.
  destruct (for_state _ _ _ _) as [rows' [|[]|[]]]; done.
Qed.

End ConvertLoop.

(** ** The calls on a message *)

Lemma initializeSelections_Some m :
  initializeSelections (Some m)
  = (let res := brush_scan 0 (columns m) (data m) [] in
     (Some (with_table m res.1.1.1 res.1.1.2), Normal (Some res.1.2))).
Proof.
  unfold initializeSelections.
  pose proof (brush_scan_normal 0 (columns m) (data m) []) as Hn.
  destruct (brush_scan _ _ _ _) as [[[cols rows] sels] k]. simpl in *.
  by rewrite Hn.
Qed.

Lemma convertDateColumns_message m :
  (convertDateColumns (Some m)).1
  = Some (with_table m (columns m)
            (for_state (A := unit) (length (columns m)) 0
               (convert_column (columns m)) (data m)).1).
Proof.
  unfold convertDateColumns.
  by destruct (for_state _ _ _ _) as [rows' [| |]].
Qed.

Lemma convertDateColumns_completion m :
  (convertDateColumns (Some m)).2
  = match (for_state (A := unit) (length (columns m)) 0
             (convert_column (columns m)) (data m)).2 with
    | Raise e => Throw e
    | _ => Normal ()
    end.
Proof.
  unfold convertDateColumns.
  by destruct (for_state _ _ _ _) as [rows' [| |]].
Qed.

Lemma convertDateColumns_throws m c colInfo r :
  columns m !! c = Some colInfo → is_date colInfo →
  r < length (data m) →
  (∀ s, cell_at (data m) r c ≠ Some (CStr s)) →
  (convertDateColumns (Some m)).2 = Throw TypeError.
Proof.
  intros Hcol Hdate Hr Hbad. rewrite convertDateColumns_completion.
  by erewrite convert_loop_throws.
Qed.

Lemma convertDateColumns_normal_strings m :
  (convertDateColumns (Some m)).2 = Normal () →
  date_cells_are_strings (columns m) (data m).
Proof.
  intros Hn c colInfo r Hcol Hdate Hr.
  destruct (cell_at (data m) r c) as [[s| |]|] eqn:Hcell; [by eauto|..];
    rewrite (convertDateColumns_throws m c colInfo r) in Hn;
    done || congruence.
Qed.

Lemma date_cells_checked_sound columnsInfo arrayData :
  date_cells_checked columnsInfo arrayData = true →
  date_cells_are_strings columnsInfo arrayData.
Proof.
  unfold date_cells_checked. rewrite forallb_forall.
  intros Hall c colInfo r Hcol Hdate Hr.
  destruct (lookup_lt_is_Some_2 arrayData r Hr) as [cells Hcells].
  specialize (Hall cells). rewrite forallb_forall in Hall.
  assert (In cells arrayData) as Hin.
  { apply list_elem_of_In, list_elem_of_lookup. eauto. }
  specialize (Hall Hin c). rewrite Hcol, Hdate in Hall. simpl in Hall.
  unfold cell_at. rewrite Hcells. simpl.
  destruct (cells !! c) as [[s| |]|]; try by eauto.
  all: exfalso; apply diff_false_true, Hall, in_seq;
    pose proof (lookup_lt_Some _ _ _ Hcol); lia.
Qed.

(** ** The type checks of [validateRoles] *)

Section TypeChecks.
Context (columnsInfo : list VAColumn.t).
Context (idx : nat → nat) (ty : nat → option string).

Local Abbreviation check n c0 :=
  (for_count n c0
     (λ c, type_differs columnsInfo (idx c) (ty c) (Return false))).

Lemma type_checks_Next n c0 :
  check n c0 = Next ↔
  ∀ j, c0 ≤ j < c0 + n →
       ∃ col, columnsInfo !! idx j = Some col ∧ Some (VAColumn.type col) = ty j.
Proof.
  revert c0. induction n as [|n IH]; intros c0; simpl.
  - split; [intros _ j; lia|done].
  - unfold type_differs at 1.
    destruct (columnsInfo !! idx c0) as [col|] eqn:Hcol.
    + case_bool_decide as Hty.
      * split; [done|]. intros Hall.
        destruct (Hall c0) as (col' & Hcol' & Hty'); [lia|]. congruence.
      * rewrite IH. split.
        -- intros Hall j Hj. destruct (decide (j = c0)) as [->|]; [by eauto|].
           apply Hall. lia.
        -- intros Hall j Hj. apply Hall. lia.
    + split; [done|]. intros Hall.
      destruct (Hall c0) as (col' & Hcol' & _); [lia|]. congruence.
Qed.

Lemma type_checks_result n c0 :
  (∀ j, c0 ≤ j < c0 + n → is_Some (columnsInfo !! idx j)) →
  check n c0 = Next ∨ check n c0 = Return false.
Proof.
  revert c0. induction n as [|n IH]; intros c0 Hin; simpl; [by left|].
  unfold type_differs at 1 3.
  destruct (Hin c0) as [col ->]; [lia|].
  case_bool_decide; [by right|]. apply IH. intros j Hj. apply Hin. lia.
Qed.

Lemma type_checks_not_true n c0 : check n c0 ≠ Return true.
Proof.
  revert c0. induction n as [|n IH]; intros c0; simpl; [done|].
  unfold type_differs at 1.
  destruct (columnsInfo !! idx c0); [|done].
  case_bool_decide; [done|apply IH].
Qed.

End TypeChecks.

(** ** The resize listeners *)

Import Resize.

Lemma resize_listener_timers ev w :
  timers (resize_listener ev w)
  = match _timeoutID w with
    | Some id => filter (λ t, timer_id t ≠ id) (timers w)
    | None => timers w
    end ++ [mkTimer (next_timer w) (now w + 25) ev].
Proof. unfold resize_listener. by destruct (_timeoutID w). Qed.

Lemma resize_listener_frame ev w :
  _timeoutID (resize_listener ev w) = Some (next_timer w)
  ∧ now (resize_listener ev w) = now w
  ∧ next_timer (resize_listener ev w) = S (next_timer w)
  ∧ resizeEnd_listeners (resize_listener ev w) = resizeEnd_listeners w
  ∧ resize_listeners (resize_listener ev w) = resize_listeners w
  ∧ calls (resize_listener ev w) = calls w.
Proof. unfold resize_listener. by destruct (_timeoutID w). Qed.

Lemma resize_listener_armed ev w :
  coalesced w → armed (now w + 25) (resize_listener ev w).
Proof.
  intros Hco. exists (next_timer w), ev.
  split; [|apply resize_listener_frame].
  rewrite resize_listener_timers.
  destruct Hco as [->|(T & id & ev' & -> & ->)].
  - by destruct (_timeoutID w).
  - rewrite filter_cons_False; [done|]. simpl. by intros [].
Qed.

Lemma resize_listeners_fold evs w :
  let w' := foldl (λ w ev, resize_listener ev w) w evs in
  now w' = now w
  ∧ resizeEnd_listeners w' = resizeEnd_listeners w
  ∧ resize_listeners w' = resize_listeners w
  ∧ calls w' = calls w
  ∧ (coalesced w → evs ≠ [] → armed (now w + 25) w').
Proof.
  revert w. induction evs as [|ev evs IH]; intros w; simpl; [done|].
  destruct (IH (resize_listener ev w)) as (Hnow & Hend & Hres & Hcalls & Harmed).
  destruct (resize_listener_frame ev w) as (_ & Hnow' & _ & Hend' & Hres' & Hcalls').
  split_and!; [congruence..|].
  intros Hco _. pose proof (resize_listener_armed ev w Hco) as Hw1.
  destruct evs as [|ev' evs]; [done|].
  rewrite <- Hnow'. apply Harmed; [|done]. right. eauto.
Qed.

Lemma dispatch_fold_frame (due : list Timer) w :
  let w' := foldl (λ w _, dispatch_resizeEnd w) w due in
  _timeoutID w' = _timeoutID w ∧ now w' = now w
  ∧ next_timer w' = next_timer w ∧ timers w' = timers w
  ∧ resizeEnd_listeners w' = resizeEnd_listeners w
  ∧ resize_listeners w' = resize_listeners w.
Proof.
  revert w. induction due as [|t due IH]; intros w; simpl; [done|].
  apply (IH (dispatch_resizeEnd w)).
Qed.

Lemma tick_frame w :
  _timeoutID (tick w) = _timeoutID w ∧ now (tick w) = S (now w)
  ∧ next_timer (tick w) = next_timer w
  ∧ timers (tick w) = filter (λ x, ¬ timer_due x ≤ S (now w)) (timers w)
  ∧ resizeEnd_listeners (tick w) = resizeEnd_listeners w
  ∧ resize_listeners (tick w) = resize_listeners w.
Proof. unfold tick. apply (dispatch_fold_frame _ (mkWindow _ _ _ _ _ _ _ _)). Qed.

Lemma tick_idle w :
  timers w = [] → timers (tick w) = [] ∧ calls (tick w) = calls w.
Proof. unfold tick. by intros ->. Qed.

Lemma tick_waits T w :
  armed T w → S (now w) < T → armed T (tick w) ∧ calls (tick w) = calls w.
Proof.
  intros (id & ev & Ht & Hid) Hlt. unfold tick, armed. rewrite Ht.
  rewrite filter_cons_True by (simpl; lia).
  rewrite filter_cons_False by (simpl; lia). simpl. eauto.
Qed.

Lemma tick_fires T w :
  armed T w → T ≤ S (now w) →
  timers (tick w) = []
  ∧ calls (tick w)
    = calls w ++ map (λ callback, (S (now w), callback)) (resizeEnd_listeners w).
Proof.
  intros (id & ev & Ht & Hid) Hle. unfold tick. rewrite Ht.
  rewrite filter_cons_False by (simpl; lia).
  rewrite filter_cons_True by (simpl; lia). done.
Qed.

Lemma elapse_frame n w :
  now (Nat.iter n tick w) = now w + n
  ∧ resizeEnd_listeners (Nat.iter n tick w) = resizeEnd_listeners w
  ∧ resize_listeners (Nat.iter n tick w) = resize_listeners w.
Proof.
  induction n as [|n (Hnow & Hend & Hres)]; simpl; [split_and!; [lia|done..]|].
  destruct (tick_frame (Nat.iter n tick w)) as (_ & Hnow' & _ & _ & Hend' & Hres').
  split_and!; [lia|congruence..].
Qed.

Lemma elapse_idle n w :
  timers w = [] →
  timers (Nat.iter n tick w) = [] ∧ calls (Nat.iter n tick w) = calls w.
Proof.
  intros Hidle. induction n as [|n [Ht Hc]]; simpl; [done|].
  destruct (tick_idle _ Ht) as [Ht' Hc']. split; congruence.
Qed.

Lemma elapse_waits T n w :
  armed T w → now w + n < T →
  armed T (Nat.iter n tick w) ∧ calls (Nat.iter n tick w) = calls w.
Proof.
  intros Harmed. induction n as [|n IH]; intros Hlt; simpl; [done|].
  destruct IH as [Ha Hc]; [lia|].
  destruct (elapse_frame n w) as (Hnow & _).
  destruct (tick_waits T _ Ha) as [Ha' Hc']; [lia|]. split; congruence.
Qed.

Lemma elapse_fires T n w :
  armed T w → now w < T ≤ now w + n →
  timers (Nat.iter n tick w) = []
  ∧ calls (Nat.iter n tick w)
    = calls w ++ map (λ callback, (T, callback)) (resizeEnd_listeners w).
Proof.
  intros Harmed. induction n as [|n IH]; intros HT; simpl; [lia|].
  destruct (elapse_frame n w) as (Hnow & Hend & _).
  destruct (decide (T ≤ now w + n)) as [Hle|Hgt].
  - destruct IH as [Ht Hc]; [lia|].
    destruct (tick_idle _ Ht) as [Ht' Hc']. split; congruence.
  - destruct (elapse_waits T n w Harmed) as [Ha Hc]; [lia|].
    destruct (tick_fires T _ Ha) as [Ht' Hc']; [lia|].
    split; [done|]. rewrite Hc', Hc, Hend, Hnow.
    by replace (S (now w + n)) with T by lia.
Qed.

Lemma resize_listener_well_formed ev w :
  well_formed w → well_formed (resize_listener ev w).
Proof.
  intros [Hlen Hids].
  destruct (resize_listener_frame ev w) as (_ & _ & Hnext & Hend & Hres & _).
  split; [congruence|]. intros t. rewrite resize_listener_timers, Hnext.
  intros [Hold| ->%list_elem_of_singleton]%elem_of_app; [|simpl; lia].
  assert (t ∈ timers w) as Ht.
  { destruct (_timeoutID w); [|done]. by apply list_elem_of_filter in Hold as [_ ?]. }
  specialize (Hids t Ht). lia.
Qed.

Lemma step_well_formed w e : well_formed w → well_formed (step w e).
Proof.
  intros Hwf. destruct e as [callback| |n]; simpl.
  - destruct Hwf as [Hlen Hids]. split; [|done].
    simpl. rewrite !length_app. simpl. lia.
  - unfold raw_resize. generalize (resize_listeners w). intros evs.
    revert w Hwf. induction evs as [|ev evs IH]; intros w Hwf; simpl; [done|].
    by apply IH, resize_listener_well_formed.
  - induction n as [|n [Hlen Hids]]; simpl; [done|].
    destruct (tick_frame (Nat.iter n tick w)) as (_ & _ & Hnext & Ht & Hend & Hres).
    split; [congruence|]. intros t. rewrite Ht, Hnext.
    intros [_ ?]%list_elem_of_filter. auto.
Qed.

Lemma reachable_well_formed w : reachable w → well_formed w.
Proof.
  intros [es ->]. unfold run.
  induction es as [|e es IH] using rev_ind.
  - split; [done|]. intros t Ht. by apply elem_of_nil in Ht.
  - rewrite foldl_app. simpl. by apply step_well_formed.
Qed.

(** A burst started in a window whose pending timer, if any, is the one
    [_timeoutID] names. *)
Lemma burst_coalesces gaps w :
  coalesced w → (resize_listeners w = [] → timers w = []) →
  Forall (λ g, g < 25) gaps →
  let w' := run (burst gaps) w in
  now w' = now w + sum_list gaps
  ∧ resizeEnd_listeners w' = resizeEnd_listeners w
  ∧ resize_listeners w' = resize_listeners w
  ∧ calls w' = calls w
  ∧ (resize_listeners w = [] → timers w' = [])
  ∧ (resize_listeners w ≠ [] → armed (now w + sum_list gaps + 25) w').
Proof.
  intros Hco Hnone Hgaps. revert w Hco Hnone.
  induction Hgaps as [|g gaps Hg _ IH]; intros w Hco Hnone.
  - simpl. unfold raw_resize.
    destruct (resize_listeners_fold (resize_listeners w) w)
      as (Hnow & Hend & Hres & Hcalls & Harmed).
    split_and!; [lia|done..| |].
    + intros Hnil. rewrite Hnil. simpl. auto.
    + intros Hne. replace (now w + 0 + 25) with (now w + 25) by lia. auto.
  - change (run (burst (g :: gaps)) w)
      with (run (burst gaps) (Nat.iter g tick (raw_resize w))).
    unfold raw_resize.
    destruct (resize_listeners_fold (resize_listeners w) w)
      as (Hnow & Hend & Hres & Hcalls & Harmed).
    set (w1 := foldl _ w _) in *.
    destruct (elapse_frame g w1) as (Hnow2 & Hend2 & Hres2).
    set (w2 := Nat.iter g tick w1) in *.
    assert (calls w2 = calls w1
            ∧ (resize_listeners w = [] → timers w2 = [])
            ∧ (resize_listeners w ≠ [] → armed (now w + 25) w2))
      as (Hcalls2 & Hidle2 & Harmed2).
    { destruct (resize_listeners w) as [|ev evs] eqn:Hevs.
      - destruct (elapse_idle g w1) as [Ht Hc]; [by apply Hnone|].
        by split_and!.
      - destruct (elapse_waits (now w + 25) g w1) as [Ha Hc]; [by auto|lia|].
        by split_and!. }
    destruct (IH w2) as (Hnow3 & Hend3 & Hres3 & Hcalls3 & Hidle3 & Harmed3).
    { destruct (resize_listeners w) as [|ev evs]; [left; auto|right].
      exists (now w + 25). by apply Harmed2. }
    { intros Hnil. apply Hidle2. congruence. }
    simpl. split_and!; [lia|congruence..| |].
    + intros Hnil. apply Hidle3. congruence.
    + intros Hne.
      replace (now w + (g + sum_list gaps) + 25)
        with (now w2 + sum_list gaps + 25) by lia.
      apply Harmed3. congruence.
Qed.

(** ** C1: the DDMMYY8 rearrangement *)

(** C1 as stated fails: for a date column of format DDMMYY8 the cell
    "15022023" is not stored as the date built from "2023-02-15". *)
Lemma ddmmyy8_undelimited_is_not_iso :
  ¬ ((convertDateColumns
        (Some (sample_message [ddmmyy8_column] [[CStr "15022023"]]))).1
     = Some (sample_message [ddmmyy8_column] [[CDate "2023-02-15"]])).
Proof. vm_compute. intros [=]. Qed.

(** C1, amended: when every cell of every date column is a string the
    call returns, and a cell of a date column whose [formatString] is
    DDMMYY8 is stored as the date built from
    [t.substr(6) + '-' + t.substr(3, 2) + '-' + t.substr(0, 2)], [t] being
    its trimmed string; these offsets step over a separator at 2 and at
    5: "15/02/2023" gives "2023-02-15", and "15022023" gives
    "23-22-15". *)
Theorem ddmmyy8_rearranges_by_fixed_offsets (m : VAMessage) (c r : nat)
    (colInfo : VAColumn.t) (s : string) :
  date_cells_are_strings (columns m) (data m) →
  columns m !! c = Some colInfo → is_date colInfo →
  VAFormat.formatString <$> VAColumn.format colInfo = Some "DDMMYY8" →
  cell_at (data m) r c = Some (CStr s) →
  let t := JSString.trim s in
  ∃ m',
    convertDateColumns (Some m) = (Some m', Normal ())
    ∧ cell_at (data m') r c
      = Some (CDate (JSString.substr_from 6 t +:+ "-"
                       +:+ JSString.substr 3 2 t +:+ "-"
                       +:+ JSString.substr 0 2 t))
    ∧ (t = "15/02/2023" → cell_at (data m') r c = Some (CDate "2023-02-15"))
    ∧ (t = "15022023" → cell_at (data m') r c = Some (CDate "23-22-15")).
Proof.
  intros Hstr Hcol Hdate Hfmt Hcell t.
  destruct (convert_loop_runs _ _ Hstr) as (rows' & Hrun & _ & _ & Hconv).
  exists (with_table m (columns m) rows'). split.
  { unfold convertDateColumns. by rewrite Hrun. }
  assert (cell_at rows' r c
          = Some (CDate (JSString.substr_from 6 t +:+ "-"
                           +:+ JSString.substr 3 2 t +:+ "-"
                           +:+ JSString.substr 0 2 t))) as Hstored.
  { rewrite (Hconv c colInfo r s) by done.
    unfold converted, rearrange, formatString_is.
    destruct (VAColumn.format colInfo) as [fmt|]; [|done].
    injection Hfmt as ->. done. }
  simpl. split; [done|].
  split; intros Ht; rewrite Hstored, Ht; reflexivity.
Qed.

Lemma ddmmyy8_rearranges_by_fixed_offsets_witness :
  ∃ m',
    convertDateColumns
      (Some (sample_message [sample_column "number" None None; ddmmyy8_column]
               [[CNum 1; CStr " 15/02/2023 "]; [CNum 2; CStr "15022023"]]))
    = (Some m', Normal ())
    ∧ cell_at (data m') 0 1 = Some (CDate "2023-02-15")
    ∧ cell_at (data m') 1 1 = Some (CDate "23-22-15").
Proof.
  destruct (ddmmyy8_rearranges_by_fixed_offsets
              (sample_message
                 [sample_column "number" None None; ddmmyy8_column]
                 [[CNum 1; CStr " 15/02/2023 "]; [CNum 2; CStr "15022023"]])
              1 0 ddmmyy8_column " 15/02/2023 ")
    as (m' & Hrun & _ & Hfirst & _);
    [apply date_cells_checked_sound; reflexivity|reflexivity..|].
  destruct (ddmmyy8_rearranges_by_fixed_offsets
              (sample_message
                 [sample_column "number" None None; ddmmyy8_column]
                 [[CNum 1; CStr " 15/02/2023 "]; [CNum 2; CStr "15022023"]])
              1 1 ddmmyy8_column "15022023")
    as (m2 & Hrun2 & _ & _ & Hsecond);
    [apply date_cells_checked_sound; reflexivity|reflexivity..|].
  assert (m2 = m') as -> by congruence.
  exists m'. split; [exact Hrun|]. split.
  - apply Hfirst. reflexivity.
  - apply Hsecond. reflexivity.
Defined.

(** ** C2: adjacent brush columns *)

(** C2, at the failing input: of two brush columns side by side the scan
    removes the first and steps over the second, which stays in the
    column list and in every row. *)
Theorem initializeSelections_skips_adjacent_brush :
  initializeSelections
    (Some (sample_message [brush_column; brush_column]
             [[CNum 1; CNum 0]; [CNum 2; CNum 5]]))
  = (Some (sample_message [brush_column] [[CNum 0]; [CNum 5]]),
     Normal (Some [mkSelection 0; mkSelection 1]))
  ∧ is_brush brush_column = true.
Proof. by split. Qed.

(** ** C3: one column more *)

(** C3 as stated fails: with the required type met and the optional list
    used up, one more column of a type that is not in the list still
    validates. *)
Lemma extra_column_past_optional_list_validates :
  validateRoles
    (Some (sample_message [sample_column "string" None None;
                           sample_column "number" None None] []))
    ["string"] (OptList ["number"])
  = Normal true
  ∧ ("date" ∉ ["number"])
  ∧ validateRoles
      (Some (sample_message [sample_column "string" None None;
                             sample_column "number" None None;
                             sample_column "date" None None] []))
      ["string"] (OptList ["number"])
    = Normal true.
Proof.
  split_and!; [reflexivity| |reflexivity].
  intros Hin. apply list_elem_of_singleton in Hin. discriminate.
Qed.

(** C3, amended: when [validateRoles] returns true for a list of optional
    types, one more column of a type that is not in the list makes it
    return false if the column lands within the list, that is if the
    message had fewer columns than there are expected and optional
    types; past the end of the list it is not compared and the result
    stays true. *)
Theorem extra_column_flips_within_optional_list
    (m m' : VAMessage) (expectedTypes ts : list string) (extra : VAColumn.t) :
  validateRoles (Some m) expectedTypes (OptList ts) = Normal true →
  VAColumn.type extra ∉ ts →
  columns m' = columns m ++ [extra] →
  validateRoles (Some m') expectedTypes (OptList ts)
  = Normal (bool_decide (length expectedTypes + length ts ≤ length (columns m))).
Proof.
  unfold validateRoles. intros Hm Hextra ->.
  set (cols := columns m) in *. set (e := length expectedTypes) in *.
  rewrite length_app. simpl.
  destruct (Nat.ltb_spec (length cols) e) as [|He]; [done|].
  destruct (Nat.ltb_spec (length cols + 1) e) as [|_]; [lia|].
  destruct (Nat.ltb_spec e (length cols + 1)) as [_|]; [|lia].
  (* the required types *)
  destruct (for_count e 0 _) as [|b|] eqn:Hreq in Hm; [|exfalso|done].
  2: { injection Hm as ->.
       exact (type_checks_not_true cols (λ c, c) (λ c, expectedTypes !! c)
                e 0 Hreq). }
  pose proof (proj1 (type_checks_Next cols (λ c, c) (λ c, expectedTypes !! c)
                       e 0) Hreq) as Hreq'.
  assert (for_count e 0 (λ c, type_differs (cols ++ [extra]) c
            (expectedTypes !! c) (Return false)) = Next) as ->.
  { apply (proj2 (type_checks_Next _ (λ c, c) (λ c, expectedTypes !! c) e 0)).
    intros j Hj. destruct (Hreq' j Hj) as (col & Hcol & Hty).
    exists col. split; [|done]. rewrite lookup_app_l; [done|lia]. }
  (* the optional types *)
  assert (∀ i, i < Nat.min (length cols - e) (length ts) →
               ∃ col, cols !! (e + i) = Some col
                      ∧ Some (VAColumn.type col) = ts !! i) as Hopt.
  { destruct (Nat.ltb_spec e (length cols)) as [Hlt|]; [|intros; lia].
    destruct (for_count _ 0 _) as [|b|] eqn:Hopt in Hm; [|exfalso|done].
    2: { injection Hm as ->.
         exact (type_checks_not_true cols (λ i, e + i) (λ i, ts !! i)
                  _ 0 Hopt). }
    pose proof (proj1 (type_checks_Next cols (λ i, e + i) (λ i, ts !! i) _ 0)
                  Hopt) as Hopt'.
    intros i Hi. apply Hopt'. lia. }
  clear Hm. case_bool_decide as Hlen.
  - assert (for_count (Nat.min (length cols + 1 - e) (length ts)) 0
              (λ i, type_differs (cols ++ [extra]) (e + i) (ts !! i)
                      (Return false)) = Next) as ->; [|done].
    apply (proj2 (type_checks_Next _ (λ i, e + i) (λ i, ts !! i) _ 0)).
    intros i Hi. destruct (Hopt i) as (col & Hcol & Hty); [lia|].
    exists col. split; [|done]. rewrite lookup_app_l; [done|lia].
  - destruct (type_checks_result (cols ++ [extra]) (λ i, e + i) (λ i, ts !! i)
                (Nat.min (length cols + 1 - e) (length ts)) 0) as [Hn|Hf].
    + intros i Hi. apply lookup_lt_is_Some_2. rewrite length_app. simpl. lia.
    + exfalso.
      pose proof (proj1 (type_checks_Next _ (λ i, e + i) (λ i, ts !! i) _ 0)
                    Hn) as Hn'.
      destruct (Hn' (length cols - e)) as (col & Hcol & Hty); [lia|].
      replace (e + (length cols - e)) with (length cols) in Hcol by lia.
      rewrite list_lookup_middle in Hcol by done. injection Hcol as <-.
      apply Hextra, list_elem_of_lookup. eauto.
    + simpl in Hf. by rewrite Hf.
Qed.

Lemma extra_column_flips_within_optional_list_witness :
  validateRoles
    (Some (sample_message [sample_column "string" None None;
                           sample_column "date" None None] []))
    ["string"] (OptList ["number"])
  = Normal false.
Proof.
  apply (extra_column_flips_within_optional_list
           (sample_message [sample_column "string" None None] [])
           (sample_message [sample_column "string" None None;
                            sample_column "date" None None] [])
           ["string"] ["number"] (sample_column "date" None None)).
  - reflexivity.
  - simpl. intros Hin. apply list_elem_of_singleton in Hin. discriminate.
  - reflexivity.
Defined.

(** ** C4: the timer handle is shared *)

(** C4 as stated fails: after two [setupResizeListener] calls, the timer
    the first call's listener has set is cancelled by the second call's
    listener handling the same raw resize. *)
Lemma second_listener_cancels_first_timer :
  (mkTimer 1 25 0
   ∈ timers (resize_listener 0 (run [Setup 7; Setup 8] initial)))
  ∧ (timer_event (mkTimer 1 25 0) ≠ 1)
  ∧ (mkTimer 1 25 0
     ∉ timers (resize_listener 1
                 (resize_listener 0 (run [Setup 7; Setup 8] initial)))).
Proof.
  split_and!.
  - vm_compute. apply list_elem_of_singleton. reflexivity.
  - discriminate.
  - vm_compute. intros Hin. apply list_elem_of_singleton in Hin. discriminate.
Qed.

(** C4, amended: the timer handle is one variable of the module, shared
    by the listeners of all [setupResizeListener] calls: whenever it
    names a pending timer, one the host has handed out, the listener of
    any call handling a raw resize cancels that timer, whichever call's
    listener had set it, and makes the handle name its own. *)
Theorem timer_handle_is_shared (w : Window) (ev : nat) (t : Timer) :
  t ∈ timers w → timer_id t < next_timer w →
  _timeoutID w = Some (timer_id t) →
  (t ∉ timers (resize_listener ev w))
  ∧ _timeoutID (resize_listener ev w) = Some (next_timer w)
  ∧ (mkTimer (next_timer w) (now w + 25) ev ∈ timers (resize_listener ev w)).
Proof.
  intros Ht Hfresh Hid.
  rewrite resize_listener_timers, Hid. split_and!.
  - intros [Hold|Hnew]%elem_of_app.
    + by apply list_elem_of_filter in Hold as [? _].
    + apply list_elem_of_singleton in Hnew as ->. simpl in Hfresh. lia.
  - apply resize_listener_frame.
  - apply elem_of_app. right. by apply list_elem_of_singleton.
Qed.

Lemma timer_handle_is_shared_witness :
  mkTimer 1 25 0
  ∉ timers (resize_listener 1
              (resize_listener 0 (run [Setup 7; Setup 8] initial))).
Proof.
  apply (timer_handle_is_shared
           (resize_listener 0 (run [Setup 7; Setup 8] initial))
           1 (mkTimer 1 25 0)).
  - vm_compute. apply list_elem_of_singleton. reflexivity.
  - vm_compute. lia.
  - reflexivity.
Defined.

(** ** C5: what selects the rearrangement *)

(** C5 as stated fails: a format whose [name] is DDMMYY8 does not get the
    DDMMYY8 reorder when its [formatString] is another. *)
Lemma format_name_does_not_select :
  ¬ ((convertDateColumns
        (Some (sample_message [named_ddmmyy8_column] [[CStr "15/02/2023"]]))).1
     = Some (sample_message [named_ddmmyy8_column] [[CDate "2023-02-15"]])).
Proof. vm_compute. intros [=]. Qed.

(** C5, amended: when every cell of every date column is a string the
    call returns, and each such cell is stored as the date built from its
    trimmed string [t], rearranged as the [formatString] of the column's
    format says: DDMMYY8 to [t.substr(6)-t.substr(3,2)-t.substr(0,2)],
    DATE9 to [t.substr(0,2) t.substr(2,3) t.substr(5)], JULIAN7, any
    other [formatString] and no format at all to [t] itself.  The [name]
    of the format has no part in it. *)
Theorem rearrangement_selected_by_formatString (m : VAMessage) :
  date_cells_are_strings (columns m) (data m) →
  ∃ m',
    convertDateColumns (Some m) = (Some m', Normal ())
    ∧ columns m' = columns m
    ∧ ∀ c colInfo r s,
        columns m !! c = Some colInfo → is_date colInfo →
        cell_at (data m) r c = Some (CStr s) →
        let t := JSString.trim s in
        let fs := VAFormat.formatString <$> VAColumn.format colInfo in
        ∃ d, cell_at (data m') r c = Some (CDate d)
          ∧ (fs = Some "DDMMYY8" →
               d = JSString.substr_from 6 t +:+ "-" +:+ JSString.substr 3 2 t
                     +:+ "-" +:+ JSString.substr 0 2 t)
          ∧ (fs = Some "JULIAN7" → d = t)
          ∧ (fs = Some "DATE9" →
               d = JSString.substr 0 2 t +:+ " " +:+ JSString.substr 2 3 t
                     +:+ " " +:+ JSString.substr_from 5 t)
          ∧ (fs ≠ Some "DDMMYY8" → fs ≠ Some "JULIAN7" → fs ≠ Some "DATE9" →
               d = t).
Proof.
  intros Hstr.
  destruct (convert_loop_runs _ _ Hstr) as (rows' & Hrun & _ & _ & Hconv).
  exists (with_table m (columns m) rows'). split.
  { unfold convertDateColumns. by rewrite Hrun. }
  split; [done|].
  intros c colInfo r s Hcol Hdate Hcell t fs.
  exists (rearrange colInfo t). split; [by apply (Hconv c)|].
  unfold rearrange, formatString_is. subst fs.
  destruct (VAColumn.format colInfo) as [fmt|]; simpl.
  - split_and!.
    + by intros [= ->].
    + by intros [= ->].
    + by intros [= ->].
    + intros H1 H2 H3.
      destruct (String.eqb_spec (VAFormat.formatString fmt) "DDMMYY8");
        [congruence|].
      destruct (String.eqb_spec (VAFormat.formatString fmt) "JULIAN7");
        [congruence|].
      destruct (String.eqb_spec (VAFormat.formatString fmt) "DATE9");
        [congruence|done].
  - by split_and!.
Qed.

Lemma rearrangement_selected_by_formatString_witness :
  ∃ m',
    convertDateColumns
      (Some (sample_message [named_ddmmyy8_column; ddmmyy8_column]
               [[CStr "15/02/2023"; CStr "15/02/2023"]]))
    = (Some m', Normal ())
    ∧ cell_at (data m') 0 0 = Some (CDate "15/02/2023")
    ∧ cell_at (data m') 0 1 = Some (CDate "2023-02-15").
Proof.
  destruct (rearrangement_selected_by_formatString
    (sample_message [named_ddmmyy8_column; ddmmyy8_column]
       [[CStr "15/02/2023"; CStr "15/02/2023"]]))
    as (m' & Hrun & _ & Hcells).
  { apply date_cells_checked_sound. reflexivity. }
  exists m'. split; [exact Hrun|]. split.
  - destruct (Hcells 0 named_ddmmyy8_column 0 "15/02/2023")
      as (d & Hd & _ & _ & _ & Hother); [reflexivity..|].
    rewrite Hd, Hother; [reflexivity|discriminate..].
  - destruct (Hcells 1 ddmmyy8_column 0 "15/02/2023")
      as (d & Hd & Hfmt & _); [reflexivity..|].
    rewrite Hd, Hfmt; reflexivity.
Defined.

(** ** C6: one delivery for a burst *)

(** C6: in a window with no timer pending, a burst of raw resizes, each
    less than 25 time units after the one before, delivers nothing
    while it lasts and leaves at most one timer pending, due 25 units
    after the last resize, every earlier one having been cancelled; when
    these 25 units are over every registered callback has been called
    once more, at that time, no timer is pending, and waiting longer
    calls nothing. *)
Theorem burst_settles_once (w : Window) (gaps : list nat) :
  reachable w → timers w = [] → Forall (λ g, g < 25) gaps →
  let T := now w + sum_list gaps + 25 in
  let w1 := run (burst gaps) w in
  let w2 := run (burst gaps ++ [Elapse 25]) w in
  calls w1 = calls w
  ∧ length (timers w1) ≤ 1
  ∧ (∀ t, t ∈ timers w1 → timer_due t = T)
  ∧ calls w2 = calls w ++ map (λ callback, (T, callback)) (resizeEnd_listeners w)
  ∧ timers w2 = []
  ∧ ∀ n, calls (run [Elapse n] w2) = calls w2.
Proof.
  intros Hreach Hidle Hgaps T w1 w2.
  destruct (reachable_well_formed w Hreach) as [Hlen _].
  destruct (burst_coalesces gaps w) as (Hnow & Hend & Hres & Hcalls & Hnone & Harmed);
    [by left|done|done|].
  fold w1 in Hnow, Hend, Hres, Hcalls, Hnone, Harmed.
  assert (w2 = Nat.iter 25 tick w1) as Hw2.
  { subst w1 w2. unfold run. by rewrite foldl_app. }
  assert (timers w2 = []
          ∧ calls w2 = calls w ++ map (λ callback, (T, callback))
                                   (resizeEnd_listeners w)) as [Ht2 Hc2].
  { rewrite Hw2. destruct (resize_listeners w) as [|ev evs] eqn:Hevs.
    - destruct (elapse_idle 25 w1) as [Ht Hc]; [by apply Hnone|].
      split; [done|]. rewrite Hc, Hcalls.
      destruct (resizeEnd_listeners w); [|done]. by rewrite app_nil_r.
    - destruct (elapse_fires T 25 w1) as [Ht Hc]; [by apply Harmed|subst T; lia|].
      split; [done|]. by rewrite Hc, Hcalls, Hend. }
  split_and!; [done| | |done|done|].
  - destruct (resize_listeners w) as [|ev evs] eqn:Hevs.
    + rewrite Hnone by done. simpl. lia.
    + destruct Harmed as (id & ev' & -> & _); [done|]. simpl. lia.
  - intros t Ht. destruct (resize_listeners w) as [|ev evs] eqn:Hevs.
    + rewrite Hnone in Ht by done. by apply elem_of_nil in Ht.
    + destruct Harmed as (id & ev' & Hts & _); [done|]. rewrite Hts in Ht.
      by apply list_elem_of_singleton in Ht as ->.
  - intros n. simpl. by destruct (elapse_idle n w2 Ht2).
Qed.

Lemma burst_settles_once_witness :
  calls (run (burst [3; 24; 0] ++ [Elapse 25])
           (run [Setup 7; Setup 8] initial))
  = [(52, 7); (52, 8)].
Proof.
  destruct (burst_settles_once (run [Setup 7; Setup 8] initial) [3; 24; 0])
    as (_ & _ & _ & Hcalls & _).
  - exists [Setup 7; Setup 8]. reflexivity.
  - reflexivity.
  - repeat constructor.
  - exact Hcalls.
Defined.

(** ** C7: columns and rows stay aligned *)

(** C7: if every row is as long as the column list before the call, so
    is every row after [validateRoles], [initializeSelections],
    [convertDateColumns] or [getVAParameters], also when the call ends
    by throwing. *)
Theorem alignment_preserved (op : Operation) (m : VAMessage) :
  aligned m → ∃ m', message_after op m = Some m' ∧ aligned m'.
Proof.
  intros Hal. destruct op; unfold message_after; [by eauto| | |by eauto].
  - rewrite initializeSelections_Some. simpl. eexists. split; [done|].
    unfold aligned. simpl. by apply brush_scan_aligned.
  - rewrite convertDateColumns_message. eexists. split; [done|].
    unfold aligned in *. simpl.
    assert (∀ r, length <$>
               (for_state (A := unit) (length (columns m)) 0
                  (convert_column (columns m)) (data m)).1 !! r
             = length <$> data m !! r) as Hrows.
    { apply (for_state_inv (λ s, ∀ r, length <$> s !! r = length <$> data m !! r));
        [done|].
      intros i s Hs r.
      destruct (convert_column_shape (columns m) i s) as (_ & Hr & _).
      by rewrite Hr. }
    apply Forall_lookup. intros r cells Hcells.
    specialize (Hrows r). rewrite Hcells in Hrows. simpl in Hrows.
    destruct (data m !! r) as [cells0|] eqn:Hcells0; [|done].
    injection Hrows as ->.
    by apply (Forall_lookup_1 _ _ _ _ Hal Hcells0).
Qed.

Lemma alignment_preserved_witness :
  ∃ m',
    message_after InitializeSelections
      (sample_message [sample_column "number" None None; brush_column]
         [[CNum 1; CNum 0]; [CNum 2; CNum 5]])
    = Some m' ∧ aligned m'.
Proof.
  apply (alignment_preserved InitializeSelections).
  unfold aligned. simpl. repeat constructor.
Defined.

(** ** C8: the parameter object *)

(** C8, at the failing input: a parameter labelled "__proto__" is not
    mapped to its value.  With a string value it leaves no trace in the
    returned object; with an array value it becomes the prototype of
    the returned object, which has no key for it. *)
Theorem getVAParameters_loses_proto_label :
  getVAParameters
    (Some (parameters_message
             [VAParameter.mk "__proto__" (PString "x");
              VAParameter.mk "a" (PString "1")]))
  = Normal (mkParamObject (<["a" := PString "1"]> ∅) ProtoObject)
  ∧ getVAParameters
      (Some (parameters_message
               [VAParameter.mk "__proto__" (PArray ["x"; "y"])]))
    = Normal (mkParamObject ∅ (ProtoArray ["x"; "y"])).
Proof. by split. Qed.

(** ** C9: the absent message *)

(** C9: for an absent message [initializeSelections] returns [null] and
    [convertDateColumns] returns without doing anything, while
    [getVAParameters], which has no such guard, throws a [TypeError]
    and returns no object, the empty one included. *)
Theorem getVAParameters_has_no_absent_guard :
  initializeSelections None = (None, Normal None)
  ∧ convertDateColumns None = (None, Normal ())
  ∧ getVAParameters None = Throw TypeError.
Proof. by split_and!. Qed.

(** ** C10: date cells must be strings *)

(** C10: [convertDateColumns] throws a [TypeError] as soon as a row has,
    in a date column, a cell that is not a string; the dates a run that
    returned has stored are such cells, so that a second run on the same
    message throws. *)
Theorem convertDateColumns_requires_strings (m : VAMessage) (c : nat)
    (colInfo : VAColumn.t) (r : nat) :
  columns m !! c = Some colInfo → is_date colInfo → r < length (data m) →
  ((∀ s, cell_at (data m) r c ≠ Some (CStr s)) →
   (convertDateColumns (Some m)).2 = Throw TypeError)
  ∧ (∀ m', convertDateColumns (Some m) = (Some m', Normal ()) →
           (convertDateColumns (Some m')).2 = Throw TypeError).
Proof.
  intros Hcol Hdate Hr. split.
  - by apply (convertDateColumns_throws m c colInfo r).
  - intros m' Hrun.
    assert (date_cells_are_strings (columns m) (data m)) as Hstr.
    { apply convertDateColumns_normal_strings. by rewrite Hrun. }
    destruct (convert_loop_runs _ _ Hstr) as (rows' & Hloop & Hlen & _ & Hconv).
    assert (m' = with_table m (columns m) rows') as ->.
    { unfold convertDateColumns in Hrun. rewrite Hloop in Hrun. congruence. }
    destruct (Hstr c colInfo r Hcol Hdate Hr) as [s Hcell].
    apply (convertDateColumns_throws _ c colInfo r); simpl; [done..|lia|].
    intros s'. by rewrite (Hconv c colInfo r s).
Qed.

Lemma convertDateColumns_requires_strings_witness :
  (convertDateColumns
     (Some (sample_message [ddmmyy8_column] [[CNum 15022023]]))).2
  = Throw TypeError
  ∧ (convertDateColumns
       (Some (sample_message [ddmmyy8_column] [[CDate "2023-02-15"]]))).2
    = Throw TypeError.
Proof.
  split.
  - destruct (convertDateColumns_requires_strings
                (sample_message [ddmmyy8_column] [[CNum 15022023]])
                0 ddmmyy8_column 0) as [Hbad _];
      [reflexivity|reflexivity|simpl; lia|].
    apply Hbad. intros s. discriminate.
  - destruct (convertDateColumns_requires_strings
                (sample_message [ddmmyy8_column] [[CStr "15/02/2023"]])
                0 ddmmyy8_column 0) as [_ Hagain];
      [reflexivity|reflexivity|simpl; lia|].
    apply Hagain. reflexivity.
Defined.

(** * Further properties of the calls *)

(** ** validateRoles *)

Lemma types_lockstep (cols : list VAColumn.t) (ts : list string) (e n : nat) :
  e + n ≤ length cols →
  (∀ i, i < n → ∃ col, cols !! (e + i) = Some col
                       ∧ Some (VAColumn.type col) = ts !! i)
  ↔ n ≤ length ts ∧ take n (drop e (VAColumn.type <$> cols)) = take n ts.
Proof.
  intros Hlen. split.
  - intros Hall. assert (n ≤ length ts) as Hn.
    { destruct n as [|n]; [lia|].
      destruct (Hall n) as (col & _ & Hty); [lia|].
      symmetry in Hty. apply lookup_lt_Some in Hty. lia. }
    split; [done|]. apply list_eq. intros i.
    destruct (decide (i < n)) as [Hi|Hi].
    + rewrite !lookup_take_lt, lookup_drop, list_lookup_fmap by done.
      destruct (Hall i Hi) as (col & -> & <-). done.
    + rewrite !lookup_take_ge by lia. done.
  - intros [Hn Heq] i Hi.
    assert (is_Some (cols !! (e + i))) as [col Hcol].
    { apply lookup_lt_is_Some_2. lia. }
    exists col. split; [done|].
    apply (f_equal (.!! i)) in Heq.
    rewrite !lookup_take_lt, lookup_drop, list_lookup_fmap, Hcol in Heq by done.
    done.
Qed.

Lemma validateRoles_returns m expectedTypes optionalTypes :
  ∃ b, validateRoles (Some m) expectedTypes optionalTypes = Normal b.
Proof.
  unfold validateRoles.
  set (cols := columns m). set (e := length expectedTypes).
  destruct (Nat.ltb_spec (length cols) e) as [|He]; [by eauto|].
  destruct (type_checks_result cols (λ c, c) (λ c, expectedTypes !! c) e 0)
    as [->| ->]; [|simpl|by eauto].
  { intros j Hj. apply lookup_lt_is_Some_2. lia. }
  destruct (Nat.ltb_spec e (length cols)) as [Hlt|]; [|by eauto].
  destruct optionalTypes as [|t|ts]; [by eauto| |].
  - destruct (type_checks_result cols (λ c, c) (λ _, Some t)
                (length cols - e) e) as [->| ->]; [|by eauto..].
    intros j Hj. apply lookup_lt_is_Some_2. lia.
  - destruct (type_checks_result cols (λ i, e + i) (λ i, ts !! i)
                (Nat.min (length cols - e) (length ts)) 0) as [->| ->];
      [|by eauto..].
    intros j Hj. apply lookup_lt_is_Some_2. lia.
Qed.

Lemma validateRoles_true m expectedTypes optionalTypes :
  let cols := columns m in
  let e := length expectedTypes in
  validateRoles (Some m) expectedTypes optionalTypes = Normal true ↔
  e ≤ length cols
  ∧ take e (VAColumn.type <$> cols) = expectedTypes
  ∧ (e < length cols →
     match optionalTypes with
     | OptNull => False
     | OptType t =>
         ∀ j, e ≤ j < e + (length cols - e) →
              ∃ col, cols !! j = Some col ∧ Some (VAColumn.type col) = Some t
     | OptList ts =>
         ∀ i, 0 ≤ i < 0 + Nat.min (length cols - e) (length ts) →
              ∃ col, cols !! (e + i) = Some col
                     ∧ Some (VAColumn.type col) = ts !! i
     end).
Proof.
  intros cols e. unfold validateRoles. fold cols. fold e.
  destruct (Nat.ltb_spec (length cols) e) as [Hlt|He].
  { split; [done|]. intros [? _]. lia. }
  pose proof (type_checks_Next cols (λ c, c) (λ c, expectedTypes !! c) e 0) as Hreq.
  pose proof (type_checks_not_true cols (λ c, c) (λ c, expectedTypes !! c) e 0) as Hreq'.
  pose proof (types_lockstep cols expectedTypes 0 e) as Hlock.
  rewrite drop_0 in Hlock. rewrite (take_ge expectedTypes) in Hlock by done.
  cbv beta in Hreq, Hreq'.
  assert (for_count e 0 (λ c, type_differs cols c (expectedTypes !! c) (Return false)) = Next
          ↔ take e (VAColumn.type <$> cols) = expectedTypes) as Hreq2.
  { rewrite Hreq. rewrite <- (and_True (take e _ = _)).
    etrans; [|etrans; [apply Hlock; lia|]].
    - split; intros H j Hj; apply (H j); lia.
    - split; intros [? ?]; split; done || lia. }
  clear Hreq Hlock.
  destruct (for_count e 0 _) as [|b|].
  - destruct (Nat.ltb_spec e (length cols)) as [Hlt|Hge].
    + destruct optionalTypes as [|t|ts].
      * split; [done|]. intros (_ & _ & H). by destruct H.
      * pose proof (type_checks_Next cols (λ c, c) (λ _, Some t) (length cols - e) e) as Hopt.
        pose proof (type_checks_not_true cols (λ c, c) (λ _, Some t) (length cols - e) e) as Hopt'.
        cbv beta in Hopt, Hopt'.
        destruct (for_count _ e _) as [|b|].
        -- split; [|done]. intros _. split_and!; [done|by apply Hreq2|].
           intros _. by apply Hopt.
        -- split.
           ++ intros [= ->]. done.
           ++ intros (_ & _ & H). apply Hopt in H; [done|lia].
        -- split; [done|]. intros (_ & _ & H). apply Hopt in H; [done|lia].
      * pose proof (type_checks_Next cols (λ i, e + i) (λ i, ts !! i) (Nat.min (length cols - e) (length ts)) 0) as Hopt.
        pose proof (type_checks_not_true cols (λ i, e + i) (λ i, ts !! i) (Nat.min (length cols - e) (length ts)) 0) as Hopt'.
        cbv beta in Hopt, Hopt'.
        destruct (for_count _ 0 _) as [|b|].
        -- split; [|done]. intros _. split_and!; [done|by apply Hreq2|].
           intros _. by apply Hopt.
        -- split.
           ++ intros [= ->]. done.
           ++ intros (_ & _ & H). apply Hopt in H; [done|lia].
        -- split; [done|]. intros (_ & _ & H). apply Hopt in H; [done|lia].
    + split; [|done]. intros _. split_and!; [done|by apply Hreq2|lia].
  - split.
    + intros [= ->]. done.
    + intros (_ & H & _). by apply Hreq2 in H.
  - split; [done|]. intros (_ & H & _). by apply Hreq2 in H.
Qed.

Lemma take_min {A} (k : nat) (l : list A) :
  take k l = take (Nat.min k (length l)) l.
Proof.
  destruct (decide (k ≤ length l)).
  - by rewrite Nat.min_l.
  - rewrite Nat.min_r, !take_ge by lia. done.
Qed.

Lemma validateRoles_split m expectedTypes optionalTypes :
  validateRoles (Some m) expectedTypes optionalTypes = Normal true ↔
  ∃ rest,
    column_types m = expectedTypes ++ rest
    ∧ match optionalTypes with
      | OptNull => rest = []
      | OptType t => rest = replicate (length rest) t
      | OptList ts => take (length ts) rest = take (length rest) ts
      end.
Proof.
  rewrite validateRoles_true. unfold column_types.
  set (cols := columns m). set (e := length expectedTypes).
  set (types := VAColumn.type <$> cols).
  assert (length types = length cols) as Htypes by apply length_fmap.
  split.
  - intros (He & Hreq & Hopt). exists (drop e types).
    split; [by rewrite <- Hreq at 1; rewrite take_drop|].
    assert (length (drop e types) = length cols - e) as Hrest.
    { rewrite length_drop. lia. }
    destruct (decide (e < length cols)) as [Hlt|Hge].
    + specialize (Hopt Hlt). destruct optionalTypes as [|t|ts]; [done| |].
      * apply list_eq. intros i. rewrite lookup_drop, Hrest.
        destruct (decide (i < length cols - e)) as [Hi|Hi].
        -- rewrite lookup_replicate_2 by done.
           destruct (Hopt (e + i)) as (col & Hcol & [= <-]); [lia|].
           subst types. by rewrite list_lookup_fmap, Hcol.
        -- rewrite lookup_ge_None_2 by lia.
           symmetry. apply lookup_replicate_None. lia.
      * assert (Nat.min (length cols - e) (length ts) ≤ length ts
                ∧ take (Nat.min (length cols - e) (length ts)) (drop e types)
                  = take (Nat.min (length cols - e) (length ts)) ts)
          as [_ Hopt'].
        { apply (types_lockstep cols ts e); [lia|].
          intros i Hi. apply Hopt. lia. }
        rewrite (take_min (length ts)), (take_min (length (drop e types)) ts).
        rewrite Hrest. rewrite (Nat.min_comm (length ts)). done.
    + assert (drop e types = []) as ->.
      { apply drop_ge. lia. }
      destruct optionalTypes; simpl; [done..|]. by rewrite take_nil.
  - intros (rest & Hsplit & Hopt).
    assert (length cols = e + length rest) as Hlen.
    { rewrite <- Htypes, Hsplit, length_app. done. }
    assert (drop e types = rest) as Hdrop.
    { rewrite Hsplit. unfold e. by rewrite drop_app_length. }
    split_and!; [lia|by rewrite Hsplit; unfold e; rewrite take_app_length|].
    intros Hlt. destruct optionalTypes as [|t|ts].
    + subst rest. simpl in Hlen. lia.
    + intros j Hj.
      assert (is_Some (cols !! j)) as [col Hcol].
      { apply lookup_lt_is_Some_2. lia. }
      exists col. split; [done|]. f_equal.
      assert (types !! j = Some (VAColumn.type col)) as Hty.
      { subst types. by rewrite list_lookup_fmap, Hcol. }
      rewrite Hsplit, lookup_app_r in Hty by lia.
      rewrite Hopt in Hty. apply lookup_replicate_1 in Hty as [? _]. done.
    + intros i Hi.
      apply (proj2 (types_lockstep cols ts e
                      (Nat.min (length cols - e) (length ts)) ltac:(lia)));
        [|lia].
      split; [lia|]. fold types. rewrite Hdrop.
      rewrite (take_min (length ts)), (take_min (length rest) ts) in Hopt.
      replace (length cols - e) with (length rest) by lia.
      by rewrite (Nat.min_comm (length ts)) in Hopt.
Qed.

(** X1: [validateRoles] returns true exactly when the column types are the
    expected types followed by a rest that is empty when [optionalTypes] is
    null, made of that one type when it is a single type, and equal to the
    optional list over the length the two have in common when it is a
    list. *)
Theorem validateRoles_accepts (m : VAMessage) (expectedTypes : list string)
    (optionalTypes : OptionalTypes) :
  validateRoles (Some m) expectedTypes optionalTypes = Normal true ↔
  ∃ rest,
    column_types m = expectedTypes ++ rest
    ∧ match optionalTypes with
      | OptNull => rest = []
      | OptType t => Forall (λ ty, ty = t) rest
      | OptList ts => take (length ts) rest = take (length rest) ts
      end.
Proof.
  rewrite validateRoles_split. split; intros (rest & Hsplit & Hopt);
    exists rest; (split; [done|]); destruct optionalTypes as [|t|ts]; try done.
  - rewrite Hopt. apply Forall_replicate. done.
  - symmetry. apply replicate_as_Forall. split; [done|].
    eapply Forall_impl; [exact Hopt|]. done.
Qed.

Lemma validateRoles_accepts_witness :
  validateRoles
    (Some (sample_message [sample_column "string" None None;
                           sample_column "number" None None;
                           sample_column "number" None None] []))
    ["string"] (OptType "number")
  = Normal true.
Proof.
  apply (proj2 (validateRoles_accepts _ _ _)).
  exists ["number"; "number"]. split; [reflexivity|].
  repeat constructor.
Defined.

(** X2: for a message that is there [validateRoles] always returns a
    boolean: no index it reads is past the end of the column list. *)
Theorem validateRoles_never_throws (m : VAMessage)
    (expectedTypes : list string) (optionalTypes : OptionalTypes) :
  ∃ b, validateRoles (Some m) expectedTypes optionalTypes = Normal b.
Proof. apply validateRoles_returns. Qed.

(** X3: two messages whose columns have the same type tags in the same
    order get the same answer from [validateRoles], whatever their rows,
    names, usages, formats and parameters. *)
Theorem validateRoles_reads_types_only (m m' : VAMessage)
    (expectedTypes : list string) (optionalTypes : OptionalTypes) :
  column_types m = column_types m' →
  validateRoles (Some m) expectedTypes optionalTypes
  = validateRoles (Some m') expectedTypes optionalTypes.
Proof.
  intros Htypes.
  pose proof (validateRoles_split m expectedTypes optionalTypes) as Hm.
  pose proof (validateRoles_split m' expectedTypes optionalTypes) as Hm'.
  rewrite Htypes in Hm.
  destruct (validateRoles_returns m expectedTypes optionalTypes) as [b Hb].
  destruct (validateRoles_returns m' expectedTypes optionalTypes) as [b' Hb'].
  rewrite Hb, Hb' in *. f_equal.
  destruct b, b'; try done.
  - pose proof (proj2 Hm' (proj1 Hm eq_refl)). discriminate.
  - pose proof (proj2 Hm (proj1 Hm' eq_refl)). discriminate.
Qed.

Lemma validateRoles_reads_types_only_witness :
  validateRoles (Some (sample_message [sample_column "string" None None] []))
    ["string"] OptNull
  = validateRoles
      (Some (mkMessage "2" "other" 5 5 [[CStr "x"]]
               [VAColumn.mk "n" "Name" "string" (Some "brush") None None]
               None))
      ["string"] OptNull.
Proof. apply validateRoles_reads_types_only. reflexivity. Defined.

(** X4: a message validates against the list of its own column types
    whatever [optionalTypes] is. *)
Theorem validateRoles_exact_types (m : VAMessage)
    (optionalTypes : OptionalTypes) :
  validateRoles (Some m) (column_types m) optionalTypes = Normal true.
Proof.
  apply validateRoles_split. exists []. split; [by rewrite app_nil_r|].
  destruct optionalTypes; simpl; [done..|]. by rewrite take_nil.
Qed.

(** ** initializeSelections *)

Lemma scan_keep_nil {A} brush : scan_keep (A := A) brush [] = [].
Proof. by destruct brush as [|[] [|? ?]]. Qed.

Lemma brush_scan_keeps c cols rows sels :
  let flags := is_brush <$> drop c cols in
  (brush_scan c cols rows sels).1.1.1
  = take c cols ++ scan_keep flags (drop c cols)
  ∧ (brush_scan c cols rows sels).1.1.2
    = (λ row : Row, take c row ++ scan_keep flags (drop c row)) <$> rows.
Proof.
  apply (brush_scan_turns (λ c cols rows sels res,
    res.1.1.1 = take c cols ++ scan_keep (is_brush <$> drop c cols) (drop c cols)
    ∧ res.1.1.2
      = (λ row : Row, take c row
                      ++ scan_keep (is_brush <$> drop c cols) (drop c row))
        <$> rows)); clear.
  - intros c cols rows sels Hnone.
    rewrite (drop_ge cols) by (by apply lookup_ge_None). simpl.
    rewrite app_nil_r, take_ge by (by apply lookup_ge_None).
    split; [done|]. rewrite <- (list_fmap_id rows) at 1.
    apply list_fmap_ext. intros _ row _. by rewrite take_drop.
  - intros c cols rows sels col Hcol Hb [IHc IHr].
    rewrite (drop_S cols col c Hcol). simpl. rewrite Hb.
    split.
    + rewrite IHc, (take_S_r cols c col Hcol), <- app_assoc. done.
    + rewrite IHr. apply list_fmap_ext. intros _ row _.
      destruct (row !! c) as [x|] eqn:Hx.
      * rewrite (drop_S row x c Hx), (take_S_r row c x Hx), <- app_assoc. done.
      * apply lookup_ge_None in Hx.
        rewrite (drop_ge row c), (drop_ge row (S c)), !take_ge by lia.
        by rewrite !scan_keep_nil.
  - intros c cols rows sels col Hcol Hb cols' rows' sels' [IHc IHr].
    rewrite (drop_S cols col c Hcol). simpl. rewrite Hb. simpl.
    assert (cols' = take c cols ++ drop (S c) cols) as Hcols'.
    { subst cols'. apply delete_take_drop. }
    assert (length (take c cols) = c) as Htake.
    { rewrite length_take. apply lookup_lt_Some in Hcol. lia. }
    assert (drop (S c) cols' = drop 1 (drop (S c) cols)
            ∧ take (S c) cols' = take c cols ++ take 1 (drop (S c) cols))
      as [Hd Ht].
    { rewrite Hcols'. split.
      - rewrite drop_app_ge by lia. rewrite Htake.
        by replace (S c - c) with 1 by lia.
      - rewrite take_app_ge by lia. rewrite Htake.
        by replace (S c - c) with 1 by lia. }
    split.
    + rewrite IHc, Hd, Ht.
      destruct (drop (S c) cols) as [|x suf]; simpl.
      * by rewrite app_nil_r.
      * rewrite drop_0. by rewrite <- app_assoc.
    + rewrite IHr. subst rows'. rewrite <- list_fmap_compose.
      apply list_fmap_ext. intros _ row _. simpl. rewrite Hd.
      destruct (row !! c) as [y|] eqn:Hy.
      * assert (length (take c row) = c) as Htr.
        { rewrite length_take. apply lookup_lt_Some in Hy. lia. }
        rewrite (drop_S row y c Hy). simpl.
        rewrite delete_take_drop.
        rewrite drop_app_ge, take_app_ge by lia. rewrite Htr.
        replace (S c - c) with 1 by lia.
        destruct (drop (S c) cols) as [|x suf]; simpl.
        -- by rewrite <- app_assoc, take_drop.
        -- rewrite drop_0. destruct (drop (S c) row) as [|z rsuf]; simpl.
           ++ by rewrite scan_keep_nil, !app_nil_r.
           ++ rewrite drop_0. by rewrite <- app_assoc.
      * apply lookup_ge_None in Hy.
        assert (delete c row = row) as ->.
        { rewrite delete_take_drop, take_ge, drop_ge, app_nil_r by lia. done. }
        rewrite (drop_ge row c), (drop_ge row (S c)) by lia.
        rewrite (take_ge row c), (take_ge row (S c)) by lia.
        rewrite scan_keep_nil. simpl.
        by destruct (list_fmap _ _ _ _).
Qed.

Lemma filter_delete_dropped {A} (P : A → Prop) `{!∀ x, Decision (P x)}
    (l : list A) (i : nat) (x : A) :
  l !! i = Some x → ¬ P x → filter P (delete i l) = filter P l.
Proof.
  intros Hx HP. rewrite delete_take_drop.
  rewrite <- (take_drop_middle l i x Hx) at 3.
  rewrite !filter_app, filter_cons_False by done. done.
Qed.

Lemma selected_rows c r0 rows :
  Forall (λ s, r0 ≤ row s < r0 + length rows) (selected c r0 rows).
Proof.
  revert r0. induction rows as [|cells rest IH]; intros r0; simpl; [done|].
  apply Forall_app. split.
  - destruct (not_zero _); [|done]. constructor; [simpl; lia|done].
  - eapply Forall_impl; [apply (IH (S r0))|]. simpl. intros s Hs. lia.
Qed.

Lemma brush_scan_outline c cols rows sels :
  let res := brush_scan c cols rows sels in
  res.2 = Normal ()
  ∧ res.1.1.1 `sublist_of` cols
  ∧ filter not_brush res.1.1.1 = filter not_brush cols
  ∧ length res.1.1.2 = length rows
  ∧ (Forall (λ s, row s < length rows) sels →
     Forall (λ s, row s < length rows) res.1.2).
Proof.
  apply (brush_scan_turns (λ c cols rows sels res,
    res.2 = Normal ()
    ∧ res.1.1.1 `sublist_of` cols
    ∧ filter not_brush res.1.1.1 = filter not_brush cols
    ∧ length res.1.1.2 = length rows
    ∧ (Forall (λ s, row s < length rows) sels →
       Forall (λ s, row s < length rows) res.1.2))); clear.
  - done.
  - done.
  - intros c cols rows sels col Hcol Hb cols' rows' sels'
      (Hn & Hsub & Hfil & Hlen & Hsel).
    assert (length rows' = length rows) as Hrows by apply length_map.
    split_and!; [done| | |congruence|].
    + etrans; [exact Hsub|]. apply sublist_delete.
    + rewrite Hfil. apply (filter_delete_dropped _ _ _ col); [done|].
      unfold not_brush. congruence.
    + intros Hs. rewrite <- Hrows. apply Hsel. rewrite Hrows.
      apply Forall_app. split; [done|].
      eapply Forall_impl; [apply selected_rows|]. simpl. intros s. lia.
Qed.

Lemma brush_scan_skips c c0 cols rows sels :
  c ≤ c0 → Forall not_brush (take c0 cols) →
  brush_scan c cols rows sels = brush_scan c0 cols rows sels.
Proof.
  intros Hle Hpre. remember (c0 - c) as d eqn:Hd. revert c Hle Hd.
  induction d as [|d IH]; intros c Hle Hd.
  - by replace c0 with c by lia.
  - rewrite brush_scan_turn.
    destruct (cols !! c) as [col|] eqn:Hcol.
    + assert (not_brush col) as Hnb.
      { apply (Forall_lookup_1 _ _ c col Hpre).
        rewrite lookup_take_lt by lia. done. }
      unfold not_brush in Hnb. rewrite Hnb. apply IH; lia.
    + rewrite (brush_scan_turn c0).
      rewrite (proj2 (lookup_ge_None cols c0)); [done|].
      apply lookup_ge_None in Hcol. lia.
Qed.

Lemma brush_scan_rest_clean c cols rows sels :
  Forall not_brush (drop c cols) →
  brush_scan c cols rows sels = ((cols, rows, sels), Normal ()).
Proof.
  apply (brush_scan_turns (λ c cols rows sels res,
    Forall not_brush (drop c cols) →
    res = ((cols, rows, sels), Normal ()))); clear; [done| |].
  - intros c cols rows sels col Hcol Hb IH Hall. apply IH.
    rewrite (drop_S _ _ _ Hcol) in Hall. by apply Forall_cons in Hall as [_ ?].
  - intros c cols rows sels col Hcol Hb cols' rows' sels' _ Hall.
    rewrite (drop_S _ _ _ Hcol) in Hall. apply Forall_cons in Hall as [Hnb _].
    unfold not_brush in Hnb. congruence.
Qed.

Lemma filter_ext_elem {A} (P Q : A → Prop) `{!∀ x, Decision (P x)}
    `{!∀ x, Decision (Q x)} (l : list A) :
  (∀ x, x ∈ l → (P x ↔ Q x)) → filter P l = filter Q l.
Proof.
  induction l as [|x l IH]; intros Hext; [done|].
  rewrite !filter_cons.
  pose proof (Hext x ltac:(left)) as Hx.
  rewrite IH by (intros y Hy; apply Hext; by right).
  destruct (decide (P x)), (decide (Q x)); tauto || done.
Qed.

Lemma selected_filter c r0 rows :
  selected c r0 rows
  = mkSelection
      <$> filter (λ r, not_zero (cell_at rows (r - r0) c) = true)
                 (seq r0 (length rows)).
Proof.
  revert r0. induction rows as [|cells rest IH]; intros r0; simpl; [done|].
  rewrite filter_cons.
  assert (filter (λ r, not_zero (cell_at (cells :: rest) (r - r0) c) = true)
            (seq (S r0) (length rest))
          = filter (λ r, not_zero (cell_at rest (r - S r0) c) = true)
              (seq (S r0) (length rest))) as ->.
  { apply filter_ext_elem. intros r Hr.
    apply list_elem_of_In, in_seq in Hr.
    replace (r - r0) with (S (r - S r0)) by lia. done. }
  rewrite IH. case_decide as Hd; rewrite Nat.sub_diag in Hd;
    unfold cell_at in Hd; simpl in Hd.
  - by rewrite Hd.
  - by destruct (not_zero (cells !! c)).
Qed.

Lemma selected_by_row c rows :
  selected c 0 rows
  = mkSelection
      <$> filter (λ r, not_zero (cell_at rows r c) = true)
                 (seq 0 (length rows)).
Proof.
  rewrite selected_filter. f_equal. apply filter_ext_elem.
  intros r _. by rewrite Nat.sub_0_r.
Qed.

Lemma scan_keep_filter (cols : list VAColumn.t) :
  no_adjacent_brush cols →
  scan_keep (is_brush <$> cols) cols = filter not_brush cols.
Proof.
  remember (length cols) as n eqn:Hn. revert cols Hn.
  induction n as [n IH] using lt_wf_ind. intros cols Hn Hadj.
  destruct cols as [|a cols]; [done|].
  assert (no_adjacent_brush cols) as Hadj'.
  { intros i x y Hx Hy. apply (Hadj (S i)); done. }
  destruct (is_brush a) eqn:Ha.
  - rewrite filter_cons_False by (unfold not_brush; congruence).
    destruct cols as [|b cols].
    + simpl. by rewrite Ha.
    + assert (is_brush b = false) as Hb by (by apply (Hadj 0 a b)).
      rewrite filter_cons_True by done.
      simpl. rewrite Ha. simpl. f_equal.
      apply (IH (length cols)); [simpl in Hn; lia|done|].
      intros i x y Hx Hy. apply (Hadj' (S i)); done.
  - rewrite filter_cons_True by done.
    simpl. rewrite Ha. f_equal.
    apply (IH (length cols)); [simpl in Hn; lia|done..].
Qed.

Lemma scan_keep_cells (cols : list VAColumn.t) (cells : Row) :
  no_adjacent_brush cols → length cells = length cols →
  scan_keep (is_brush <$> cols) cells = kept_cells cols cells.
Proof.
  unfold kept_cells.
  remember (length cols) as n eqn:Hn. revert cols cells Hn.
  induction n as [n IH] using lt_wf_ind. intros cols cells Hn Hadj Hlen.
  destruct cols as [|a cols]; [destruct cells; [done|simpl in *; lia]|].
  destruct cells as [|x cells]; [simpl in *; lia|].
  assert (no_adjacent_brush cols) as Hadj'.
  { intros i u v Hu Hv. apply (Hadj (S i)); done. }
  simpl in Hlen, Hn. cbn [zip zip_with].
  destruct (is_brush a) eqn:Ha.
  - rewrite filter_cons_False by (unfold not_brush; simpl; congruence).
    destruct cols as [|b cols].
    + destruct cells; [|simpl in *; lia]. simpl. by rewrite Ha.
    + destruct cells as [|y cells]; [simpl in *; lia|].
      assert (is_brush b = false) as Hb by (by apply (Hadj 0 a b)).
      cbn [zip zip_with]. rewrite filter_cons_True by done.
      simpl. rewrite Ha. simpl. f_equal.
      apply (IH (length cols)); [simpl in *; lia|done| |simpl in *; lia].
      intros i u v Hu Hv. apply (Hadj' (S i)); done.
  - rewrite filter_cons_True by done.
    simpl. rewrite Ha. f_equal.
    apply (IH (length cols)); [lia|done|done|lia].
Qed.

Lemma with_table_same m : with_table m (columns m) (data m) = m.
Proof. by destruct m. Qed.

(** X5: for a message that is there [initializeSelections] returns a
    selection array and never throws; the columns it leaves are a
    sublist of the columns it got in which every column that is not a
    brush column is kept, in order; the number of rows and the parameters
    are unchanged, and every selection entry names a row of the table. *)
Theorem initializeSelections_only_drops_brush_columns (m : VAMessage) :
  ∃ m' selections,
    initializeSelections (Some m) = (Some m', Normal (Some selections))
    ∧ columns m' `sublist_of` columns m
    ∧ filter not_brush (columns m') = filter not_brush (columns m)
    ∧ length (data m') = length (data m)
    ∧ parameters m' = parameters m
    ∧ Forall (λ s, row s < length (data m)) selections.
Proof.
  rewrite initializeSelections_Some. eexists _, _. split; [done|]. simpl.
  destruct (brush_scan_outline 0 (columns m) (data m) [])
    as (_ & Hsub & Hfil & Hlen & Hsel).
  split_and!; [done..|]. by apply Hsel.
Qed.

(** X6: what [initializeSelections] leaves of the column list and of every
    row is what a scan keeps that drops the element at a brush column and
    then steps over the next element without looking at it. *)
Theorem initializeSelections_steps_over_next_column (m : VAMessage) :
  let brush := is_brush <$> columns m in
  (initializeSelections (Some m)).1
  = Some (with_table m (scan_keep brush (columns m))
            (scan_keep brush <$> data m)).
Proof.
  rewrite initializeSelections_Some. simpl.
  destruct (brush_scan_keeps 0 (columns m) (data m) []) as [Hc Hr].
  rewrite drop_0 in Hc, Hr. simpl in Hc, Hr. rewrite Hc, Hr.
  done.
Qed.

Lemma Forall_filter_holds {A} (P : A → Prop) `{!∀ x, Decision (P x)}
    (l : list A) : Forall P (filter P l).
Proof. apply Forall_forall. intros x Hx. by apply list_elem_of_filter in Hx as [? _]. Qed.

Lemma brush_scan_separated m :
  no_adjacent_brush (columns m) → aligned m →
  (brush_scan 0 (columns m) (data m) []).1.1
  = (filter not_brush (columns m), kept_cells (columns m) <$> data m).
Proof.
  intros Hadj Hal.
  destruct (brush_scan_keeps 0 (columns m) (data m) []) as [Hc Hr].
  rewrite drop_0 in Hc, Hr. simpl in Hc, Hr.
  rewrite scan_keep_filter in Hc by done.
  assert ((brush_scan 0 (columns m) (data m) []).1.1.2
          = kept_cells (columns m) <$> data m) as Hr'.
  { rewrite Hr. apply Forall_fmap_ext_1. eapply Forall_impl; [exact Hal|].
    simpl. intros cells Hlen. rewrite drop_0. by apply scan_keep_cells. }
  destruct (brush_scan _ _ _ _) as [[[cols rows] sels] k]. simpl in *.
  by rewrite Hc, Hr'.
Qed.

(** X7: when no brush column comes right after another and every row is
    as long as the column list, [initializeSelections] leaves exactly the
    columns that are not brush columns, and of every row the cells at
    these columns. *)
Theorem initializeSelections_strips_separated_brush_columns (m : VAMessage) :
  no_adjacent_brush (columns m) → aligned m →
  ∃ m' selections,
    initializeSelections (Some m) = (Some m', Normal (Some selections))
    ∧ columns m' = filter not_brush (columns m)
    ∧ Forall not_brush (columns m')
    ∧ data m' = kept_cells (columns m) <$> data m.
Proof.
  intros Hadj Hal. rewrite initializeSelections_Some. simpl.
  pose proof (brush_scan_separated m Hadj Hal) as Hres.
  eexists _, _. split; [done|]. simpl. rewrite Hres. simpl.
  split_and!; [done| |done]. apply Forall_filter_holds.
Qed.

Lemma initializeSelections_strips_separated_brush_columns_witness :
  ∃ m' selections,
    initializeSelections (Some separated_brush_message)
    = (Some m', Normal (Some selections))
    ∧ columns m' = filter not_brush (columns separated_brush_message)
    ∧ Forall not_brush (columns m')
    ∧ data m'
      = kept_cells (columns separated_brush_message)
          <$> data separated_brush_message.
Proof.
  apply initializeSelections_strips_separated_brush_columns.
  - intros i a b Ha Hb Hbrush.
    destruct i as [|[|[|i]]]; simpl in Ha, Hb; try done;
      injection Ha as <-; injection Hb as <-;
      first [reflexivity | vm_compute in Hbrush; discriminate].
  - unfold aligned. simpl. repeat constructor.
Defined.

(** X8: under the same conditions a second [initializeSelections] on the
    message the first has left returns the empty array and changes
    nothing. *)
Theorem initializeSelections_again_finds_nothing (m : VAMessage) :
  no_adjacent_brush (columns m) → aligned m →
  ∃ m' selections,
    initializeSelections (Some m) = (Some m', Normal (Some selections))
    ∧ initializeSelections (Some m') = (Some m', Normal (Some [])).
Proof.
  intros Hadj Hal.
  pose proof (brush_scan_separated m Hadj Hal) as Hres.
  set (res := brush_scan 0 (columns m) (data m) []) in *.
  exists (with_table m res.1.1.1 res.1.1.2), res.1.2.
  split; [by rewrite initializeSelections_Some|].
  rewrite initializeSelections_no_brush.
  - by rewrite with_table_same.
  - simpl. rewrite Hres. simpl. apply Forall_filter_holds.
Qed.

Lemma initializeSelections_again_finds_nothing_witness :
  ∃ m' selections,
    initializeSelections (Some separated_brush_message)
    = (Some m', Normal (Some selections))
    ∧ initializeSelections (Some m') = (Some m', Normal (Some [])).
Proof.
  apply initializeSelections_again_finds_nothing.
  - intros i a b Ha Hb Hbrush.
    destruct i as [|[|[|i]]]; simpl in Ha, Hb; try done;
      injection Ha as <-; injection Hb as <-;
      first [reflexivity | vm_compute in Hbrush; discriminate].
  - unfold aligned. simpl. repeat constructor.
Defined.

(** X9: without a brush column [initializeSelections] returns the empty
    array and leaves the message as it is. *)
Theorem initializeSelections_without_brush (m : VAMessage) :
  Forall not_brush (columns m) →
  initializeSelections (Some m) = (Some m, Normal (Some [])).
Proof.
  intros Hall. rewrite initializeSelections_no_brush by done.
  by rewrite with_table_same.
Qed.

Lemma initializeSelections_without_brush_witness :
  initializeSelections
    (Some (sample_message [sample_column "number" None None] [[CNum 1]]))
  = (Some (sample_message [sample_column "number" None None] [[CNum 1]]),
     Normal (Some [])).
Proof.
  apply initializeSelections_without_brush. simpl. repeat constructor.
Defined.

(** X10: with one brush column, at index [c], [initializeSelections]
    removes that column and cell [c] of every row (a row that has no cell
    [c] is left as it is) and returns, in ascending order, the rows whose
    cell [c] is not the number 0, a missing cell counting as not 0. *)
Theorem initializeSelections_single_brush (m : VAMessage)
    (before after : list VAColumn.t) (brush : VAColumn.t) :
  columns m = before ++ brush :: after → is_brush brush = true →
  Forall not_brush before → Forall not_brush after →
  let c := length before in
  initializeSelections (Some m)
  = (Some (with_table m (before ++ after) (delete c <$> data m)),
     Normal (Some (mkSelection
                     <$> filter (λ r, not_zero (cell_at (data m) r c) = true)
                                (seq 0 (length (data m)))))).
Proof.
  intros Hcols Hb Hbefore Hafter c. subst c.
  rewrite initializeSelections_Some.
  rewrite (brush_scan_skips 0 (length before))
    by (lia || by rewrite Hcols, take_app_length).
  rewrite brush_scan_turn.
  rewrite Hcols, list_lookup_middle, Hb by done.
  assert (delete (length before) (before ++ brush :: after) = before ++ after)
    as ->.
  { rewrite delete_take_drop, take_app_length.
    rewrite (cons_middle brush), app_assoc.
    replace (S (length before)) with (length (before ++ [brush]))
      by (rewrite length_app; simpl; lia).
    by rewrite drop_app_length. }
  rewrite brush_scan_rest_clean.
  - simpl. by rewrite selected_by_row.
  - rewrite drop_app_ge by lia.
    replace (S (length before) - length before) with 1 by lia.
    by apply Forall_drop.
Qed.

Lemma initializeSelections_single_brush_witness :
  initializeSelections (Some single_brush_message)
  = (Some (sample_message
             [sample_column "number" None None;
              sample_column "string" None None]
             [[CNum 1; CStr "a"]; [CNum 2; CStr "b"]]),
     Normal (Some [mkSelection 1])).
Proof.
  apply (initializeSelections_single_brush single_brush_message
           [sample_column "number" None None]
           [sample_column "string" None None] brush_column).
  - reflexivity.
  - reflexivity.
  - repeat constructor.
  - repeat constructor.
Defined.

(** ** convertDateColumns *)

Lemma only_converted_refl cols rows : only_converted cols rows rows.
Proof. intros r c. by left. Qed.

Lemma only_converted_trans cols rows1 rows2 rows3 :
  only_converted cols rows1 rows2 → only_converted cols rows2 rows3 →
  only_converted cols rows1 rows3.
Proof.
  intros H12 H23 r c.
  destruct (H23 r c) as [->|(col & s & Hcol & Hdate & Hold & Hnew)];
    [apply H12|].
  destruct (H12 r c) as [Heq|(col' & s' & _ & _ & _ & Hconv)].
  - right. exists col, s. by rewrite <- Heq.
  - rewrite Hold in Hconv. discriminate.
Qed.

Lemma convert_cell_only_converted cols colInfo c r rows :
  cols !! c = Some colInfo → is_date colInfo →
  only_converted cols rows (convert_cell colInfo c r rows).1.
Proof.
  intros Hcol Hdate. unfold convert_cell.
  destruct (rows !! r) as [cells|] eqn:Hr; [|apply only_converted_refl].
  destruct (cells !! c) as [[s| |]|] eqn:Hc; try apply only_converted_refl.
  simpl. intros r' c'. rewrite cell_at_insert_row by done.
  case_decide as Hd; [|by left].
  destruct Hd as (-> & -> & _). right. exists colInfo, s.
  split_and!; [done..| |done]. unfold cell_at. by rewrite Hr.
Qed.

Lemma convert_column_only_converted cols c rows :
  only_converted cols rows (convert_column cols c rows).1.
Proof.
  unfold convert_column.
  destruct (cols !! c) as [colInfo|] eqn:Hcol; [|apply only_converted_refl].
  destruct (String.eqb_spec (VAColumn.type colInfo) "date") as [Hdate|];
    [|apply only_converted_refl].
  apply (for_state_inv (only_converted cols rows)); [apply only_converted_refl|].
  intros i s Hs. eapply only_converted_trans; [exact Hs|].
  by apply convert_cell_only_converted.
Qed.

(** X11: however [convertDateColumns] ends, by returning or by throwing,
    the columns, the parameters and the number of rows are as before and
    every cell is either as before or was a string of a date column and
    is now the date built from it. *)
Theorem convertDateColumns_only_turns_strings_into_dates (m : VAMessage) :
  ∃ m' k,
    convertDateColumns (Some m) = (Some m', k)
    ∧ columns m' = columns m
    ∧ parameters m' = parameters m
    ∧ length (data m') = length (data m)
    ∧ only_converted (columns m) (data m) (data m').
Proof.
  pose proof (convertDateColumns_message m) as Hm.
  eexists _, (convertDateColumns (Some m)).2.
  split; [rewrite <- Hm; apply surjective_pairing|].
  simpl. split_and!; [done..| |].
  - apply (for_state_inv (λ s, length s = length (data m))); [done|].
    intros i s Hs. destruct (convert_column_shape (columns m) i s) as [Hl _].
    congruence.
  - apply (for_state_inv (only_converted (columns m) (data m)));
      [apply only_converted_refl|].
    intros i s Hs. eapply only_converted_trans; [exact Hs|].
    apply convert_column_only_converted.
Qed.

(** X12: without a date column [convertDateColumns] returns and leaves the
    message as it is, whatever the cells are. *)
Theorem convertDateColumns_without_date_column (m : VAMessage) :
  Forall (λ colInfo, ¬ is_date colInfo) (columns m) →
  convertDateColumns (Some m) = (Some m, Normal ()).
Proof.
  intros Hnone. unfold convertDateColumns.
  destruct (for_state_runs (A := unit) (λ _ s, s = data m)
              (convert_column (columns m)) (length (columns m)) 0 (data m))
    as (rows' & -> & ->); [done| |by rewrite with_table_same].
  intros i s Hi ->. exists (data m). split; [|done].
  unfold convert_column.
  destruct (columns m !! i) as [colInfo|] eqn:Hcol; [|done].
  pose proof (Forall_lookup_1 _ _ _ _ Hnone Hcol) as Hnd. simpl in Hnd.
  by destruct (String.eqb_spec (VAColumn.type colInfo) "date").
Qed.

Lemma convertDateColumns_without_date_column_witness :
  convertDateColumns
    (Some (sample_message [sample_column "number" None None] [[CNum 1]; []]))
  = (Some (sample_message [sample_column "number" None None] [[CNum 1]; []]),
     Normal ()).
Proof.
  apply convertDateColumns_without_date_column. simpl.
  constructor; [unfold is_date; discriminate|constructor].
Defined.

(** X13: [convertDateColumns] returns, rather than throws, exactly when
    every row has a string in every date column. *)
Theorem convertDateColumns_returns_iff_strings (m : VAMessage) :
  (convertDateColumns (Some m)).2 = Normal ()
  ↔ date_cells_are_strings (columns m) (data m).
Proof.
  split; [apply convertDateColumns_normal_strings|].
  intros Hstr. destruct (convert_loop_runs _ _ Hstr) as (rows' & Hrun & _).
  unfold convertDateColumns. by rewrite Hrun.
Qed.

Lemma convertDateColumns_returns_iff_strings_witness :
  (convertDateColumns
     (Some (sample_message [ddmmyy8_column; sample_column "number" None None]
              [[CStr "15/02/2023"; CNum 4]]))).2
  = Normal ().
Proof.
  apply (proj2 (convertDateColumns_returns_iff_strings _)).
  apply date_cells_checked_sound. reflexivity.
Defined.

Lemma for_state_run_stop {St A} (P : nat → St → Prop)
    (Q : St → Control A → Prop) (body : nat → St → St * Control A) n c st i0 :
  c ≤ i0 < c + n → P c st →
  (∀ i s, c ≤ i < i0 → P i s → ∃ s', body i s = (s', Next) ∧ P (S i) s') →
  (∀ s, P i0 s → (body i0 s).2 ≠ Next ∧ Q (body i0 s).1 (body i0 s).2) →
  Q (for_state n c body st).1 (for_state n c body st).2.
Proof.
  revert c st. induction n as [|n IH]; intros c st Hi0 Hst Hrun Hstop; [lia|].
  simpl. destruct (decide (c = i0)) as [->|Hne].
  - destruct (Hstop st Hst) as [Hk HQ].
    destruct (body i0 st) as [s1 [| |]]; simpl in *; done.
  - destruct (Hrun c st) as (s1 & -> & Hs1); [lia|done|].
    apply IH; [lia|done| |done]. intros i s Hi. apply Hrun. lia.
Qed.

Lemma convert_cell_step colInfo c r base st str :
  rows_converted colInfo c r base st →
  cell_at base r c = Some (CStr str) →
  ∃ st', convert_cell colInfo c r st = (st', Next)
         ∧ rows_converted colInfo c (S r) base st'.
Proof.
  intros (Hshape & Hrest & Hdone) Hcell.
  pose proof (convert_cell_shape colInfo c r _ _ Hshape) as Hshape'.
  revert Hshape'. unfold convert_cell.
  destruct (base !! r) as [cells|] eqn:Hr;
    [|unfold cell_at in Hcell; by rewrite Hr in Hcell].
  assert (cells !! c = Some (CStr str)) as Hc.
  { unfold cell_at in Hcell. by rewrite Hr in Hcell. }
  rewrite (Hrest r), Hr, Hc by lia. simpl. intros Hshape'.
  eexists. split; [done|]. split; [done|]. split.
  - intros r' Hr'. rewrite list_lookup_insert_ne by lia. apply Hrest. lia.
  - intros r' str' Hr' Hcell'.
    rewrite cell_at_insert_row by (rewrite Hrest by lia; done).
    case_decide as Hd.
    + destruct Hd as (-> & _). unfold converted. congruence.
    + apply Hdone; [|done].
      destruct (decide (r' = r)) as [->|]; [|lia].
      exfalso. apply Hd. split_and!; [done..|]. by eapply lookup_lt_Some.
Qed.

Lemma convert_column_stops cols c colInfo base r0 :
  cols !! c = Some colInfo → is_date colInfo →
  r0 < length base →
  (∀ s, cell_at base r0 c ≠ Some (CStr s)) →
  (∀ r, r < r0 → ∃ s, cell_at base r c = Some (CStr s)) →
  ∃ st, convert_column cols c base = (st, Raise TypeError)
        ∧ rows_converted colInfo c r0 base st.
Proof.
  intros Hcol Hdate Hr0 Hbad Hgood. unfold convert_column, is_date in *.
  rewrite Hcol, Hdate. simpl.
  pose proof (for_state_run_stop (A := unit)
    (λ r st, rows_converted colInfo c r base st)
    (λ st k, k = Raise TypeError ∧ rows_converted colInfo c r0 base st)
    (convert_cell colInfo c) (length base) 0 base r0) as Hloop.
  destruct (for_state _ _ _ _) as [st k]. simpl in Hloop.
  destruct Hloop as [-> Hst]; [lia| | | |by eauto].
  - split; [apply same_shape_refl|]. split; [done|]. intros; lia.
  - intros r s Hr Hs. destruct (Hgood r) as [str Hstr]; [lia|].
    by apply (convert_cell_step _ _ _ _ _ str).
  - intros s Hs. pose proof Hs as (_ & Hrest & _).
    unfold convert_cell. rewrite (Hrest r0) by lia.
    destruct (lookup_lt_is_Some_2 base r0 Hr0) as [cells Hcells].
    rewrite Hcells.
    destruct (cells !! c) as [[str| |]|] eqn:Hc; simpl; try done.
    destruct (Hbad str). unfold cell_at. by rewrite Hcells.
Qed.

Lemma convert_column_step cols j base st :
  columns_converted cols j base st →
  (∀ colInfo r, cols !! j = Some colInfo → is_date colInfo →
                r < length base → ∃ s, cell_at base r j = Some (CStr s)) →
  ∃ st', convert_column cols j st = (st', Next)
         ∧ columns_converted cols (S j) base st'.
Proof.
  intros (Hlen & Hrest & Hdone) Hstr.
  pose proof (convert_column_shape cols j st) as (Hlen' & _ & Hcells).
  destruct (cols !! j) as [colInfo|] eqn:Hcol.
  - destruct (decide (is_date colInfo)) as [Hdate|Hnot].
    + destruct (convert_column_strings cols j colInfo st Hcol Hdate)
        as (st' & Hst' & Hconv).
      { intros r Hr. rewrite Hrest by done. apply (Hstr colInfo); [done..|lia]. }
      rewrite Hst' in *. simpl in *. exists st'. split; [done|]. split_and!.
      * lia.
      * intros r c Hc. rewrite Hcells by lia. apply Hrest. lia.
      * intros c colInfo' r str Hc Hcol' Hdate' Hcell.
        destruct (decide (c = j)) as [->|Hne].
        -- assert (colInfo' = colInfo) as -> by congruence.
           apply Hconv. by rewrite Hrest.
        -- rewrite Hcells by done. apply (Hdone c); [lia|done..].
    + exists st. unfold convert_column. rewrite Hcol.
      destruct (String.eqb_spec (VAColumn.type colInfo) "date"); [done|].
      split; [done|]. split_and!; [done| |].
      * intros r c Hc. apply Hrest. lia.
      * intros c colInfo' r str Hc Hcol' Hdate' Hcell.
        destruct (decide (c = j)) as [->|Hne]; [congruence|].
        apply (Hdone c); [lia|done..].
  - exists st. unfold convert_column. rewrite Hcol.
    split; [done|]. split_and!; [done| |].
    + intros r c Hc. apply Hrest. lia.
    + intros c colInfo' r str Hc Hcol' Hdate' Hcell.
      destruct (decide (c = j)) as [->|Hne]; [congruence|].
      apply (Hdone c); [lia|done..].
Qed.

(** X14: [convertDateColumns] goes column by column and, in a column, row
    by row; at the first cell of a date column that is not a string it
    throws, and nothing is undone: the date columns before are converted,
    in the column of the cell the rows above it are converted, and the
    cell, the rows below it and the columns after are as they were. *)
Theorem convertDateColumns_stops_at_first_bad_cell (m : VAMessage)
    (c0 : nat) (colInfo0 : VAColumn.t) (r0 : nat) :
  columns m !! c0 = Some colInfo0 → is_date colInfo0 →
  r0 < length (data m) →
  (∀ s, cell_at (data m) r0 c0 ≠ Some (CStr s)) →
  (∀ c colInfo r, c < c0 → columns m !! c = Some colInfo → is_date colInfo →
                  r < length (data m) →
                  ∃ s, cell_at (data m) r c = Some (CStr s)) →
  (∀ r, r < r0 → ∃ s, cell_at (data m) r c0 = Some (CStr s)) →
  ∃ m',
    convertDateColumns (Some m) = (Some m', Throw TypeError)
    ∧ (∀ c colInfo r s, c < c0 →
         columns m !! c = Some colInfo → is_date colInfo →
         cell_at (data m) r c = Some (CStr s) →
         cell_at (data m') r c = Some (converted colInfo s))
    ∧ (∀ r s, r < r0 → cell_at (data m) r c0 = Some (CStr s) →
              cell_at (data m') r c0 = Some (converted colInfo0 s))
    ∧ (∀ r, r0 ≤ r → cell_at (data m') r c0 = cell_at (data m) r c0)
    ∧ (∀ r c, c0 < c → cell_at (data m') r c = cell_at (data m) r c).
Proof.
  intros Hcol Hdate Hr0 Hbad Hbefore Habove.
  set (cols := columns m) in *. set (base := data m) in *.
  pose proof (for_state_run_stop (A := unit)
    (λ j st, columns_converted cols j base st)
    (λ st k, k = Raise TypeError
             ∧ ∃ mid, columns_converted cols c0 base mid
                      ∧ rows_converted colInfo0 c0 r0 mid st)
    (convert_column cols) (length cols) 0 base c0) as Hloop.
  unfold convertDateColumns. fold cols. fold base.
  destruct (for_state _ _ _ _) as [st k]. simpl in Hloop.
  destruct Hloop as (-> & mid & (Hlen & Hrest & Hdone) & Hshape & Hrows & Hconv).
  - split; [lia|]. by eapply lookup_lt_Some.
  - split_and!; [done..|]. intros; lia.
  - intros j s Hj Hs. apply (convert_column_step cols j base s Hs).
    intros colInfo r. apply Hbefore. lia.
  - intros s Hs. pose proof Hs as (Hlen & Hrest & _).
    destruct (convert_column_stops cols c0 colInfo0 s r0) as (s' & Hs' & Hconv);
      [done|done|lia| | |].
    + intros str. rewrite Hrest by done. apply Hbad.
    + intros r Hr. rewrite Hrest by done. by apply Habove.
    + rewrite Hs'. simpl. split; [done|]. split; [done|]. eauto.
  - destruct Hshape as (_ & _ & Hcells).
    eexists. split; [done|]. simpl. split_and!.
    + intros c colInfo r s Hc Hcol' Hdate' Hcell.
      rewrite Hcells by lia. by apply (Hdone c).
    + intros r s Hr Hcell. apply Hconv; [done|]. by rewrite Hrest.
    + intros r Hr. unfold cell_at at 1. rewrite Hrows by done.
      by apply Hrest.
    + intros r c Hc. rewrite Hcells by lia. apply Hrest. lia.
Qed.

Lemma convertDateColumns_stops_at_first_bad_cell_witness :
  ∃ m',
    convertDateColumns (Some bad_cell_message) = (Some m', Throw TypeError)
    ∧ cell_at (data m') 1 0 = Some (CDate "2009-08-07")
    ∧ cell_at (data m') 0 1 = Some (CDate "2006-05-04")
    ∧ cell_at (data m') 1 1 = Some (CNum 5).
Proof.
  destruct (convertDateColumns_stops_at_first_bad_cell bad_cell_message
              1 ddmmyy8_column 1)
    as (m' & Hrun & Hbefore & Habove & Hrest & _).
  - reflexivity.
  - reflexivity.
  - simpl. lia.
  - intros s Hs. vm_compute in Hs. discriminate.
  - intros c colInfo r Hc _ _ Hr. destruct c as [|c]; [|lia].
    destruct r as [|[|r]]; [eexists; reflexivity..|simpl in Hr; lia].
  - intros r Hr. destruct r as [|r]; [eexists; reflexivity|lia].
  - exists m'. split; [exact Hrun|]. split_and!.
    + apply (Hbefore 0 ddmmyy8_column 1 "07/08/2009"); [lia|reflexivity..].
    + apply (Habove 0 "04/05/2006"); [lia|reflexivity].
    + rewrite Hrest by lia. reflexivity.
Defined.

Lemma convertDateColumns_normal_cells m m' c colInfo r s :
  convertDateColumns (Some m) = (Some m', Normal ()) →
  columns m !! c = Some colInfo → is_date colInfo →
  cell_at (data m) r c = Some (CStr s) →
  cell_at (data m') r c = Some (converted colInfo s).
Proof.
  intros Hrun Hcol Hdate Hcell.
  assert (date_cells_are_strings (columns m) (data m)) as Hstr.
  { apply convertDateColumns_normal_strings. by rewrite Hrun. }
  destruct (convert_loop_runs _ _ Hstr) as (rows' & Hloop & _ & _ & Hconv).
  unfold convertDateColumns in Hrun. rewrite Hloop in Hrun.
  injection Hrun as <-. simpl. by apply (Hconv c).
Qed.

Lemma rearrange_ddmmyy8 (colInfo : VAColumn.t) (d a mo b y : string) :
  VAFormat.formatString <$> VAColumn.format colInfo = Some "DDMMYY8" →
  String.length d = 2 → String.length a = 1 →
  String.length mo = 2 → String.length b = 1 →
  rearrange colInfo (d +:+ a +:+ mo +:+ b +:+ y) = y +:+ "-" +:+ mo +:+ "-" +:+ d.
Proof.
  intros Hfmt Hd Ha Hm Hb. unfold rearrange, formatString_is.
  destruct (VAColumn.format colInfo) as [fmt|]; [|done].
  injection Hfmt as ->. simpl.
  destruct d as [|d1 [|d2 [|]]]; try done.
  destruct a as [|a1 [|]]; try done.
  destruct mo as [|m1 [|m2 [|]]]; try done.
  destruct b as [|b1 [|]]; try done.
Qed.

Lemma rearrange_date9 (colInfo : VAColumn.t) (d mo y : string) :
  VAFormat.formatString <$> VAColumn.format colInfo = Some "DATE9" →
  String.length d = 2 → String.length mo = 3 →
  rearrange colInfo (d +:+ mo +:+ y) = d +:+ " " +:+ mo +:+ " " +:+ y.
Proof.
  intros Hfmt Hd Hm. unfold rearrange, formatString_is.
  destruct (VAColumn.format colInfo) as [fmt|]; [|done].
  injection Hfmt as ->. simpl.
  destruct d as [|d1 [|d2 [|]]]; try done.
  destruct mo as [|m1 [|m2 [|m3 [|]]]]; try done.
Qed.

(** X15: after a [convertDateColumns] that returned, a cell of a DDMMYY8
    date column whose trimmed string was two code units, a separator, two
    code units, a separator and a rest holds the date built from the rest,
    a dash, the second pair, a dash and the first pair. *)
Theorem ddmmyy8_reorders_delimited (m m' : VAMessage) (c r : nat)
    (colInfo : VAColumn.t) (s d a mo b y : string) :
  convertDateColumns (Some m) = (Some m', Normal ()) →
  columns m !! c = Some colInfo → is_date colInfo →
  VAFormat.formatString <$> VAColumn.format colInfo = Some "DDMMYY8" →
  cell_at (data m) r c = Some (CStr s) →
  JSString.trim s = d +:+ a +:+ mo +:+ b +:+ y →
  String.length d = 2 → String.length a = 1 →
  String.length mo = 2 → String.length b = 1 →
  cell_at (data m') r c = Some (CDate (y +:+ "-" +:+ mo +:+ "-" +:+ d)).
Proof.
  intros Hrun Hcol Hdate Hfmt Hcell Htrim Hd Ha Hm Hb.
  rewrite (convertDateColumns_normal_cells m m' c colInfo r s) by done.
  unfold converted. rewrite Htrim. by rewrite rearrange_ddmmyy8.
Qed.

Lemma ddmmyy8_reorders_delimited_witness :
  cell_at (data (sample_message [ddmmyy8_column] [[CDate "2023-02-15"]])) 0 0
  = Some (CDate "2023-02-15").
Proof.
  apply (ddmmyy8_reorders_delimited
           (sample_message [ddmmyy8_column] [[CStr " 15.02.2023 "]])
           (sample_message [ddmmyy8_column] [[CDate "2023-02-15"]])
           0 0 ddmmyy8_column " 15.02.2023 " "15" "." "02" "." "2023");
    reflexivity.
Defined.

(** X16: after a [convertDateColumns] that returned, a cell of a DATE9
    date column whose trimmed string was two code units, three code units
    and a rest holds the date built from the three parts with a space
    between them. *)
Theorem date9_spaces_out (m m' : VAMessage) (c r : nat)
    (colInfo : VAColumn.t) (s d mo y : string) :
  convertDateColumns (Some m) = (Some m', Normal ()) →
  columns m !! c = Some colInfo → is_date colInfo →
  VAFormat.formatString <$> VAColumn.format colInfo = Some "DATE9" →
  cell_at (data m) r c = Some (CStr s) →
  JSString.trim s = d +:+ mo +:+ y →
  String.length d = 2 → String.length mo = 3 →
  cell_at (data m') r c = Some (CDate (d +:+ " " +:+ mo +:+ " " +:+ y)).
Proof.
  intros Hrun Hcol Hdate Hfmt Hcell Htrim Hd Hm.
  rewrite (convertDateColumns_normal_cells m m' c colInfo r s) by done.
  unfold converted. rewrite Htrim. by rewrite rearrange_date9.
Qed.

Lemma date9_spaces_out_witness :
  cell_at (data (sample_message [date9_column] [[CDate "15 FEB 2023"]])) 0 0
  = Some (CDate "15 FEB 2023").
Proof.
  apply (date9_spaces_out
           (sample_message [date9_column] [[CStr "15FEB2023"]])
           (sample_message [date9_column] [[CDate "15 FEB 2023"]])
           0 0 date9_column "15FEB2023" "15" "FEB" "2023");
    reflexivity.
Defined.

(** ** getVAParameters *)

Lemma getVAParameters_object m ps :
  parameters m = Some ps →
  getVAParameters (Some m) = Normal (parameters_object ps).
Proof. intros Hps. unfold getVAParameters. by rewrite Hps. Qed.

Lemma parameters_object_snoc ps p :
  parameters_object (ps ++ [p])
  = assign (parameters_object ps) (VAParameter.label p) (VAParameter.value p).
Proof. unfold parameters_object. by rewrite foldl_app. Qed.

Lemma assign_proto o v :
  own (assign o "__proto__" v) = own o.
Proof. unfold assign. simpl. by destruct v. Qed.

Lemma assign_other o l v :
  l ≠ "__proto__" →
  assign o l v = mkParamObject (<[l := v]> (own o)) (prototype o).
Proof.
  intros Hl. unfold assign.
  by destruct (String.eqb_spec l "__proto__").
Qed.

Lemma parameters_object_lookup ps k :
  k ≠ "__proto__" → own (parameters_object ps) !! k = last_value k ps.
Proof.
  intros Hk. unfold last_value.
  induction ps as [|p ps IH] using rev_ind; [done|].
  rewrite parameters_object_snoc, filter_app.
  destruct (decide (VAParameter.label p = "__proto__")) as [Hp|Hp].
  - rewrite Hp, assign_proto.
    rewrite filter_cons_False, filter_nil, app_nil_r by congruence.
    exact IH.
  - rewrite assign_other by done. simpl.
    destruct (decide (VAParameter.label p = k)) as [<-|Hne].
    + rewrite lookup_insert_eq.
      rewrite filter_cons_True, filter_nil by done.
      by rewrite last_snoc.
    + rewrite lookup_insert_ne by done.
      rewrite filter_cons_False, filter_nil, app_nil_r by done.
      exact IH.
Qed.

Lemma parameters_object_no_proto ps :
  own (parameters_object ps) !! "__proto__" = None.
Proof.
  induction ps as [|p ps IH] using rev_ind; [done|].
  rewrite parameters_object_snoc.
  destruct (decide (VAParameter.label p = "__proto__")) as [Hp|Hp].
  - by rewrite Hp, assign_proto.
  - rewrite assign_other by done. simpl. by rewrite lookup_insert_ne.
Qed.

Lemma parameters_object_dom ps :
  dom (own (parameters_object ps))
  = list_to_set (filter (λ l, l ≠ "__proto__") (VAParameter.label <$> ps)).
Proof.
  induction ps as [|p ps IH] using rev_ind; [apply dom_empty_L|].
  rewrite parameters_object_snoc, fmap_app, filter_app, list_to_set_app_L.
  simpl.
  destruct (decide (VAParameter.label p = "__proto__")) as [Hp|Hp].
  - rewrite Hp, assign_proto, IH.
    rewrite filter_cons_False, filter_nil by (intros H; by apply H).
    simpl. by rewrite (right_id_L ∅ (∪)).
  - rewrite assign_other by done. simpl.
    rewrite dom_insert_L, IH.
    rewrite filter_cons_True, filter_nil by done.
    simpl. rewrite (right_id_L ∅ (∪)). apply (comm_L (∪)).
Qed.

Lemma parameters_object_size ps :
  size (own (parameters_object ps)) ≤ length ps.
Proof.
  induction ps as [|p ps IH] using rev_ind; [done|].
  rewrite parameters_object_snoc, length_app. simpl.
  destruct (decide (VAParameter.label p = "__proto__")) as [Hp|Hp].
  - rewrite Hp, assign_proto. lia.
  - rewrite assign_other by done. simpl.
    destruct (own (parameters_object ps) !! VAParameter.label p) eqn:Hl.
    + rewrite map_size_insert_Some by eauto. lia.
    + rewrite map_size_insert_None by done. lia.
Qed.

(** The prototype after the assignments of a second array. *)
Lemma parameters_object_app ps qs :
  own (parameters_object (ps ++ qs))
  = own (parameters_object qs) ∪ own (parameters_object ps)
  ∧ prototype (parameters_object (ps ++ qs))
    = match prototype (parameters_object qs) with
      | ProtoObject => prototype (parameters_object ps)
      | ProtoArray l => ProtoArray l
      end.
Proof.
  induction qs as [|q qs [IHo IHp]] using rev_ind.
  - rewrite app_nil_r. unfold parameters_object at 2 4. simpl.
    by rewrite (left_id_L ∅ (∪)).
  - rewrite app_assoc, !parameters_object_snoc.
    destruct (decide (VAParameter.label q = "__proto__")) as [Hq|Hq].
    + rewrite Hq, !assign_proto. split; [done|].
      unfold assign. simpl. by destruct (VAParameter.value q).
    + rewrite !assign_other by done. simpl.
      split; [|done]. by rewrite IHo, insert_union_l.
Qed.

Lemma parameters_object_distinct ps :
  NoDup (VAParameter.label <$> ps) →
  "__proto__" ∉ VAParameter.label <$> ps →
  size (own (parameters_object ps)) = length ps
  ∧ (∀ p, p ∈ ps →
          own (parameters_object ps) !! VAParameter.label p
          = Some (VAParameter.value p))
  ∧ prototype (parameters_object ps) = ProtoObject.
Proof.
  induction ps as [|p ps IH] using rev_ind; intros Hnd Hproto.
  - split_and!; [done| |done]. intros p Hp. by apply elem_of_nil in Hp.
  - rewrite fmap_app in Hnd, Hproto.
    apply NoDup_app in Hnd as (Hps & Hp & _).
    apply not_elem_of_app in Hproto as [Hproto Hlp].
    destruct (IH Hps Hproto) as (Hsize & Hlook & Hprot).
    assert (VAParameter.label p ≠ "__proto__") as Hne.
    { intros Heq. apply Hlp. simpl. rewrite Heq. by left. }
    assert (own (parameters_object ps) !! VAParameter.label p = None) as Hfresh.
    { apply not_elem_of_dom. rewrite parameters_object_dom.
      rewrite elem_of_list_to_set. intros [_ Hin]%list_elem_of_filter.
      apply (Hp _ Hin). simpl. by left. }
    rewrite parameters_object_snoc, assign_other by done. simpl. split_and!.
    + rewrite map_size_insert_None, length_app by done. simpl. lia.
    + intros q [Hq| ->%list_elem_of_singleton]%elem_of_app.
      * rewrite lookup_insert_ne; [by apply Hlook|].
        intros Heq. apply (Hp (VAParameter.label q)).
        -- apply list_elem_of_fmap. eauto.
        -- simpl. rewrite <- Heq. by left.
      * by rewrite lookup_insert_eq.
    + done.
Qed.

(** X17: the own keys of the object [getVAParameters] returns are the
    labels of the parameters but for "__proto__", which is never one;
    each of them holds the value of the last parameter that carries the
    label, and the object has at most as many own properties as there
    are parameters. *)
Theorem getVAParameters_keys (m : VAMessage) (ps : list VAParameter.t) :
  parameters m = Some ps →
  ∃ o,
    getVAParameters (Some m) = Normal o
    ∧ dom (own o)
      = list_to_set (filter (λ l, l ≠ "__proto__") (VAParameter.label <$> ps))
    ∧ size (own o) ≤ length ps
    ∧ (∀ k, k ≠ "__proto__" → own o !! k = last_value k ps)
    ∧ own o !! "__proto__" = None.
Proof.
  intros Hps. exists (parameters_object ps).
  split; [by apply getVAParameters_object|].
  split; [apply parameters_object_dom|].
  split; [apply parameters_object_size|].
  split; [intros k; apply parameters_object_lookup|].
  apply parameters_object_no_proto.
Qed.

Lemma getVAParameters_keys_witness :
  ∃ o,
    getVAParameters
      (Some (parameters_message
               [VAParameter.mk "a" (PString "1");
                VAParameter.mk "__proto__" (PString "x");
                VAParameter.mk "a" (PString "2")]))
    = Normal o
    ∧ own o !! "a" = Some (PString "2")
    ∧ own o !! "__proto__" = None.
Proof.
  destruct (getVAParameters_keys
              (parameters_message [VAParameter.mk "a" (PString "1");
                                   VAParameter.mk "__proto__" (PString "x");
                                   VAParameter.mk "a" (PString "2")])
              [VAParameter.mk "a" (PString "1");
               VAParameter.mk "__proto__" (PString "x");
               VAParameter.mk "a" (PString "2")])
    as (o & Ho & _ & _ & Hlast & Hproto); [reflexivity|].
  exists o. split; [exact Ho|]. split; [|exact Hproto].
  rewrite Hlast by discriminate. reflexivity.
Defined.

(** X18: when the labels are all different and none of them is
    "__proto__", the object [getVAParameters] returns has one own
    property per parameter, each label holding the value of its
    parameter, and its prototype is [Object.prototype]. *)
Theorem getVAParameters_distinct_labels (m : VAMessage)
    (ps : list VAParameter.t) :
  parameters m = Some ps → NoDup (VAParameter.label <$> ps) →
  "__proto__" ∉ VAParameter.label <$> ps →
  ∃ o,
    getVAParameters (Some m) = Normal o
    ∧ size (own o) = length ps
    ∧ (∀ p, p ∈ ps → own o !! VAParameter.label p = Some (VAParameter.value p))
    ∧ prototype o = ProtoObject.
Proof.
  intros Hps Hnd Hproto. exists (parameters_object ps).
  split; [by apply getVAParameters_object|].
  by apply parameters_object_distinct.
Qed.

Lemma getVAParameters_distinct_labels_witness :
  ∃ o,
    getVAParameters
      (Some (parameters_message
               [VAParameter.mk "a" (PString "1");
                VAParameter.mk "b" (PArray ["x"; "y"])]))
    = Normal o
    ∧ size (own o) = 2
    ∧ (∀ p, p ∈ [VAParameter.mk "a" (PString "1");
                 VAParameter.mk "b" (PArray ["x"; "y"])] →
            own o !! VAParameter.label p = Some (VAParameter.value p))
    ∧ prototype o = ProtoObject.
Proof.
  apply (getVAParameters_distinct_labels
           (parameters_message [VAParameter.mk "a" (PString "1");
                                VAParameter.mk "b" (PArray ["x"; "y"])])
           [VAParameter.mk "a" (PString "1");
            VAParameter.mk "b" (PArray ["x"; "y"])]).
  - reflexivity.
  - apply (bool_decide_unpack _). reflexivity.
  - apply (bool_decide_unpack _). reflexivity.
Defined.

(** X19: for a parameter array that is one array followed by another,
    the own properties of the returned object are those for the second
    array completed by those for the first, the second winning on a
    label both carry; its prototype is the array the second has put
    there if it has put one, and the prototype for the first
    otherwise. *)
Theorem getVAParameters_later_array_wins (m1 m2 m : VAMessage)
    (ps qs : list VAParameter.t) :
  parameters m1 = Some ps → parameters m2 = Some qs →
  parameters m = Some (ps ++ qs) →
  ∃ o1 o2 o,
    getVAParameters (Some m1) = Normal o1
    ∧ getVAParameters (Some m2) = Normal o2
    ∧ getVAParameters (Some m) = Normal o
    ∧ own o = own o2 ∪ own o1
    ∧ prototype o
      = match prototype o2 with
        | ProtoObject => prototype o1
        | ProtoArray l => ProtoArray l
        end.
Proof.
  intros H1 H2 H.
  exists (parameters_object ps), (parameters_object qs),
    (parameters_object (ps ++ qs)).
  rewrite (getVAParameters_object m1 ps), (getVAParameters_object m2 qs),
    (getVAParameters_object m (ps ++ qs)) by done.
  split_and!; [done..| |]; apply parameters_object_app.
Qed.

Lemma getVAParameters_later_array_wins_witness :
  ∃ o1 o2 o,
    getVAParameters
      (Some (parameters_message [VAParameter.mk "a" (PString "1");
                                 VAParameter.mk "__proto__" (PArray ["x"])]))
    = Normal o1
    ∧ getVAParameters
        (Some (parameters_message [VAParameter.mk "a" (PString "2")]))
      = Normal o2
    ∧ getVAParameters
        (Some (parameters_message [VAParameter.mk "a" (PString "1");
                                   VAParameter.mk "__proto__" (PArray ["x"]);
                                   VAParameter.mk "a" (PString "2")]))
      = Normal o
    ∧ own o = own o2 ∪ own o1
    ∧ prototype o
      = match prototype o2 with
        | ProtoObject => prototype o1
        | ProtoArray l => ProtoArray l
        end.
Proof.
  apply (getVAParameters_later_array_wins
           (parameters_message [VAParameter.mk "a" (PString "1");
                                VAParameter.mk "__proto__" (PArray ["x"])])
           (parameters_message [VAParameter.mk "a" (PString "2")])
           (parameters_message [VAParameter.mk "a" (PString "1");
                                VAParameter.mk "__proto__" (PArray ["x"]);
                                VAParameter.mk "a" (PString "2")])
           [VAParameter.mk "a" (PString "1");
            VAParameter.mk "__proto__" (PArray ["x"])]
           [VAParameter.mk "a" (PString "2")]);
    reflexivity.
Defined.

(** ** setupResizeListener *)

Lemma debounced_coalesced w : debounced w → coalesced w.
Proof.
  intros (Hlen & Hid & _). destruct (timers w) as [|t [|t' ts]] eqn:Ht.
  - by left.
  - right. exists (timer_due t), (timer_id t), (timer_event t).
    split; [by destruct t|]. apply Hid. by left.
  - simpl in Hlen. lia.
Qed.

Lemma armed_debounced T w :
  armed T w → now w < T ≤ now w + 25 → resize_listeners w ≠ [] →
  debounced w.
Proof.
  intros (id & ev & Ht & Hid) HT Hne. unfold debounced. rewrite Ht.
  split_and!; [simpl; lia| |done].
  intros t ->%list_elem_of_singleton. done.
Qed.

Lemma step_debounced w e : debounced w → debounced (step w e).
Proof.
  intros Hd. destruct e as [callback| |n]; simpl.
  - destruct Hd as (Hlen & Hid & Hnone). split_and!; [done..|].
    simpl. intros Hnil. by apply app_nil in Hnil as [_ ?].
  - unfold raw_resize.
    destruct (resize_listeners_fold (resize_listeners w) w)
      as (Hnow & _ & Hres & _ & Harmed).
    destruct (resize_listeners w) as [|ev evs] eqn:Hevs; [done|].
    apply (armed_debounced (now w + 25)).
    + apply Harmed; [by apply debounced_coalesced|done].
    + rewrite Hnow. lia.
    + by rewrite Hres.
  - induction n as [|n IH]; simpl; [done|].
    destruct IH as (Hlen & Hid & Hnone).
    destruct (tick_frame (Nat.iter n tick w)) as (Hh & Hnow & _ & Ht & _ & Hres).
    unfold debounced. rewrite Ht, Hh, Hnow, Hres. split_and!.
    + etrans; [apply length_filter|done].
    + intros t [Hdue Hin]%list_elem_of_filter.
      destruct (Hid t Hin) as [? ?]. split; [done|]. lia.
    + intros Hnil. by rewrite Hnone.
Qed.

Lemma reachable_debounced w : reachable w → debounced w.
Proof.
  intros [es ->]. unfold run.
  induction es as [|e es IH] using rev_ind.
  - split_and!; [simpl; lia| |done]. intros t Ht. by apply elem_of_nil in Ht.
  - rewrite foldl_app. simpl. by apply step_debounced.
Qed.

(** X21: whatever [setupResizeListener] calls, raw resizes and waits have
    happened, at most one timer is pending; it is the one [_timeoutID]
    names and it falls due within the next 25 time units; and no timer is
    pending as long as no [setupResizeListener] call was made. *)
Theorem reachable_window_is_debounced (w : Window) :
  reachable w →
  length (timers w) ≤ 1
  ∧ (∀ t, t ∈ timers w →
          _timeoutID w = Some (timer_id t)
          ∧ now w < timer_due t ≤ now w + 25)
  ∧ (resize_listeners w = [] → timers w = []).
Proof. apply reachable_debounced. Qed.

(** X22: without a raw resize no callback is ever called and no timer is
    ever set, whatever is set up and however long one waits. *)
Theorem no_resize_no_call (es : list HostEvent) :
  Forall (λ e, e ≠ RawResize) es →
  calls (run es initial) = [] ∧ timers (run es initial) = [].
Proof.
  unfold run. induction es as [|e es IH] using rev_ind; intros Hes; [done|].
  apply Forall_app in Hes as [Hes He]. rewrite Forall_singleton in He.
  destruct (IH Hes) as [Hc Ht]. rewrite foldl_app. simpl.
  destruct e as [callback| |n]; simpl; [done|exfalso; by apply He|].
  destruct (elapse_idle n _ Ht) as [Ht' Hc']. split; congruence.
Qed.

Lemma no_resize_no_call_witness :
  calls (run [Setup 1; Elapse 100; Setup 2; Elapse 7] initial) = []
  ∧ timers (run [Setup 1; Elapse 100; Setup 2; Elapse 7] initial) = [].
Proof.
  apply no_resize_no_call.
  repeat (constructor; [discriminate|]). constructor.
Defined.

Lemma reachable_window_is_debounced_witness :
  length (timers (run [Setup 7; Setup 8; RawResize; Elapse 3; RawResize] initial))
  ≤ 1.
Proof.
  apply (reachable_window_is_debounced
           (run [Setup 7; Setup 8; RawResize; Elapse 3; RawResize] initial)).
  exists [Setup 7; Setup 8; RawResize; Elapse 3; RawResize]. reflexivity.
Defined.

(** X23: for fewer than 25 time units after a raw resize no callback is
    called, also when a delivery was about to happen: the resize has
    cancelled it. *)
Theorem raw_resize_postpones (w : Window) (n : nat) :
  reachable w → n < 25 →
  calls (run [RawResize; Elapse n] w) = calls w.
Proof.
  intros Hreach Hn. pose proof (reachable_debounced w Hreach) as Hd.
  simpl. unfold raw_resize.
  destruct (resize_listeners_fold (resize_listeners w) w)
    as (Hnow & _ & _ & Hcalls & Harmed).
  destruct (resize_listeners w) as [|ev evs] eqn:Hevs.
  - simpl. destruct Hd as (_ & _ & Hnone).
    by destruct (elapse_idle n w (Hnone Hevs)).
  - destruct (elapse_waits (now w + 25) n
                (foldl (λ w ev, resize_listener ev w) w (ev :: evs)))
      as [_ Hc]; [|lia|congruence].
    apply Harmed; [by apply debounced_coalesced|done].
Qed.

Lemma raw_resize_postpones_witness :
  calls (run [RawResize; Elapse 24]
           (run [Setup 7; RawResize; Elapse 24] initial))
  = calls (run [Setup 7; RawResize; Elapse 24] initial).
Proof.
  apply raw_resize_postpones; [|lia].
  exists [Setup 7; RawResize; Elapse 24]. reflexivity.
Defined.

Lemma spaced_resizes gaps w :
  well_formed w → timers w = [] → Forall (λ g, 25 ≤ g) gaps →
  calls (run (spaced gaps) w)
  = calls w ++ deliveries (now w) gaps (resizeEnd_listeners w)
  ∧ timers (run (spaced gaps) w) = [].
Proof.
  intros Hwf Hidle Hgaps. revert w Hwf Hidle.
  induction Hgaps as [|g gaps Hg _ IH]; intros w Hwf Hidle.
  - simpl. by rewrite app_nil_r.
  - change (run (spaced (g :: gaps)) w)
      with (run (spaced gaps) (Nat.iter g tick (raw_resize w))).
    unfold raw_resize.
    destruct (resize_listeners_fold (resize_listeners w) w)
      as (Hnow & Hend & Hres & Hcalls & Harmed).
    pose proof (step_well_formed _ RawResize Hwf) as Hwf1.
    simpl in Hwf1. unfold raw_resize in Hwf1.
    set (w1 := foldl _ w _) in *.
    pose proof (step_well_formed _ (Elapse g) Hwf1) as Hwf2. simpl in Hwf2.
    destruct (elapse_frame g w1) as (Hnow2 & Hend2 & _).
    assert (timers (Nat.iter g tick w1) = []
            ∧ calls (Nat.iter g tick w1)
              = calls w ++ map (λ callback, (now w + 25, callback))
                             (resizeEnd_listeners w)) as [Ht2 Hc2].
    { destruct (resize_listeners w) as [|ev evs] eqn:Hevs.
      - destruct (elapse_idle g w1) as [Ht Hc]; [done|].
        split; [done|]. rewrite Hc. destruct Hwf as [Hlen _].
        rewrite Hevs in Hlen.
        destruct (resizeEnd_listeners w); [|done]. by rewrite app_nil_r.
      - destruct (elapse_fires (now w + 25) g w1) as [Ht Hc];
          [apply Harmed; [by left|done]|lia|].
        split; [done|]. by rewrite Hc, Hcalls, Hend. }
    destruct (IH _ Hwf2 Ht2) as [Hc3 Ht3].
    split; [|done]. rewrite Hc3, Hc2, Hnow2, Hnow, Hend2, Hend. simpl.
    by rewrite <- app_assoc.
Qed.

(** X24: raw resizes that are each at least 25 time units after the one
    before are not merged: starting with no timer pending, each of them
    is followed, 25 units later, by one call of every registered
    callback, in the order of registration. *)
Theorem spaced_resizes_are_each_delivered (w : Window) (gaps : list nat) :
  reachable w → timers w = [] → Forall (λ g, 25 ≤ g) gaps →
  calls (run (spaced gaps) w)
  = calls w ++ deliveries (now w) gaps (resizeEnd_listeners w)
  ∧ timers (run (spaced gaps) w) = [].
Proof.
  intros Hreach. apply spaced_resizes. by apply reachable_well_formed.
Qed.

Lemma spaced_resizes_are_each_delivered_witness :
  calls (run (spaced [25; 40]) (run [Setup 7; Setup 8] initial))
  = [(25, 7); (25, 8); (50, 7); (50, 8)].
Proof.
  destruct (spaced_resizes_are_each_delivered
              (run [Setup 7; Setup 8] initial) [25; 40]) as [Hcalls _].
  - exists [Setup 7; Setup 8]. reflexivity.
  - reflexivity.
  - repeat (constructor; [simpl; lia|]). constructor.
  - exact Hcalls.
Defined.

(** X25: a callback that [setupResizeListener] registers while a timer is
    pending is called with the others when that timer runs, after them. *)
Theorem callback_set_up_while_pending_is_called (w : Window) (T callback : nat) :
  armed T w → now w < T →
  calls (run [Setup callback; Elapse (T - now w)] w)
  = calls w
    ++ map (λ c, (T, c)) (resizeEnd_listeners w ++ [callback]).
Proof.
  intros Harmed HT. simpl.
  destruct (elapse_fires T (T - now w) (setupResizeListener callback w))
    as [_ Hc]; [|simpl; lia|done].
  destruct Harmed as (id & ev & Ht & Hid). by exists id, ev.
Qed.

Lemma callback_set_up_while_pending_is_called_witness :
  calls (run [Setup 8; Elapse (25 - 10)]
           (run [Setup 7; RawResize; Elapse 10] initial))
  = [(25, 7); (25, 8)].
Proof.
  apply (callback_set_up_while_pending_is_called
           (run [Setup 7; RawResize; Elapse 10] initial) 25 8).
  - exists 1, 0. split; reflexivity.
  - vm_compute. lia.
Defined.
